(** * Store API of the road-monitoring lab: CRUD endpoints and WebSocket registry

    A shallow embedding of [main.py]: the pydantic models, the
    [processed_agent_data] table behind a SQLAlchemy session, the five
    CRUD endpoints, the WebSocket endpoint with its global [subscriptions]
    set, and the helper [send_data_to_subscribers].

    The storage engine and the web framework are outside [main.py].  They
    appear here as a small explicit model:
    - the table is a finite map from the primary key [id] to the other
      columns; a session works on a private copy that [commit] publishes
      and [close] drops;
    - every round trip to the engine may raise; which ones do is read
      from a script carried by the engine state, so that statements can
      quantify over all failure patterns;
    - what the column types do to a bound value, and how the framework
      prints its own [HTTPException], are parameters ([External]);
    - what a handler returns is written as JSON after the handler has
      returned, and a float that is not finite cannot be written. *)

From Stdlib Require Import ZArith PrimFloat.
From stdpp Require Import gmap strings list pretty.

Local Open Scope Z_scope.

(** ** Data model *)

Definition float := PrimFloat.float.

(** [datetime.datetime]: calendar fields and an optional UTC offset in
    seconds ([tzinfo]). *)
Record datetime := mk_datetime {
  year : Z; month : Z; day : Z;
  hour : Z; minute : Z; second : Z; microsecond : Z;
  tzinfo : option Z
}.

Module AccelerometerData.
Record t := mk { x : float; y : float; z : float }.
End AccelerometerData.

Module GpsData.
Record t := mk { latitude : float; longitude : float }.
End GpsData.

Module AgentData.
Record t := mk {
  accelerometer : AccelerometerData.t;
  gps : GpsData.t;
  timestamp : datetime
}.
End AgentData.

Module ProcessedAgentDataRequest.
Record t := mk { road_state : string; agent_data : AgentData.t }.
End ProcessedAgentDataRequest.

Module ProcessedAgentDataInDB.
Record t := mk {
  id : Z;
  road_state : string;
  x : float; y : float; z : float;
  latitude : float; longitude : float;
  timestamp : datetime
}.
End ProcessedAgentDataInDB.

(** The columns of [processed_agent_data] other than the primary key. *)
Module Row.
Record t := mk {
  road_state : string;
  x : float; y : float; z : float;
  latitude : float; longitude : float;
  timestamp : datetime
}.
End Row.

(** A WebSocket connection object; two connections are the same object
    exactly when their identities agree. *)
Definition WebSocket := nat.

(** ** Exceptions and responses *)

Inductive Exception :=
| HTTPException (status_code : Z) (detail : string)
| SQLAlchemyError (msg : string)
| AttributeError (msg : string)
| TypeError (msg : string).

Inductive Response :=
| JSONStatus (status : string)
| JSONRecord (r : ProcessedAgentDataInDB.t)
| JSONList (l : list ProcessedAgentDataInDB.t)
| JSONError (status_code : Z) (detail : string).

(** The HTTP status of a reply as it is sent: the three JSON bodies go
    out with 200. *)
Definition status_code_of (r : Response) : Z :=
  match r with
  | JSONError c _ => c
  | _ => 200
  end.

(** ** The storage engine *)

(** [rows] is the committed table, [id_seq] the sequence that feeds the
    primary key (it is not transactional), [faults] the script of the
    coming round trips: [Some msg] makes that round trip raise an error
    that prints as [msg]; [None], or an exhausted script, lets it through. *)
Record Engine := mk_engine {
  rows : gmap Z Row.t;
  id_seq : Z;
  faults : list (option string)
}.

(** An open session: the engine it is bound to and the table as the
    running transaction sees it. *)
Record Session := mk_session {
  bind : Engine;
  txn : gmap Z Row.t
}.

Class External := {
  column_coerce : Row.t -> Row.t;
  str_HTTPException : Z -> string -> string
}.

(** Handler bodies run in a state and exception monad over the session. *)
Definition M (A : Type) : Type := Session -> (Exception + A) * Session.

Definition ret {A} (a : A) : M A := fun s => (inr a, s).

Definition raise {A} (e : Exception) : M A := fun s => (inl e, s).

Definition bindM {A B} (m : M A) (k : A -> M B) : M B :=
  fun s =>
    match m s with
    | (inl e, s') => (inl e, s')
    | (inr a, s') => k a s'
    end.

(** [try: body  except Exception as e: handler e] *)
Definition try_except {A} (body : M A) (handler : Exception -> M A) : M A :=
  fun s =>
    match body s with
    | (inl e, s') => handler e s'
    | (inr a, s') => (inr a, s')
    end.

#[global] Instance M_ret : MRet M := @ret.
#[global] Instance M_bind : MBind M := fun A B k m => bindM m k.

(** [for x in xs: body x] *)
Fixpoint for_each {A} (body : A -> M unit) (xs : list A) : M unit :=
  match xs with
  | [] => ret tt
  | x :: xs' => body x ;; for_each body xs'
  end.

Definition set_faults (fs : list (option string)) (s : Session) : Session :=
  mk_session (mk_engine (rows (bind s)) (id_seq (bind s)) fs) (txn s).

Definition set_txn (t : gmap Z Row.t) (s : Session) : Session :=
  mk_session (bind s) t.

(** One round trip to the engine, consuming one entry of the script. *)
Definition round_trip : M unit :=
  fun s =>
    match faults (bind s) with
    | [] => (inr tt, s)
    | None :: fs => (inr tt, set_faults fs s)
    | Some msg :: fs => (inl (SQLAlchemyError msg), set_faults fs s)
    end.

(** [nextval]: the sequence moves on whether or not the transaction lasts. *)
Definition nextval : M Z :=
  fun s =>
    let e := bind s in
    (inr (id_seq e), mk_session (mk_engine (rows e) (id_seq e + 1) (faults e)) (txn s)).

Section Store.
Context `{External}.

(** The statement proper of an [INSERT]: a key already in the table
    violates the primary key. *)
Definition insert_row (i : Z) (values : Row.t) : M unit :=
  fun s =>
    match txn s !! i with
    | Some _ =>
        (inl (SQLAlchemyError "duplicate key value violates unique constraint"), s)
    | None => (inr tt, set_txn (<[i := column_coerce values]> (txn s)) s)
    end.

Definition select_row (i : Z) : M (option (Z * Row.t)) :=
  fun s => (inr (pair i <$> txn s !! i), s).

Definition select_rows : M (list (Z * Row.t)) :=
  fun s => (inr (map_to_list (txn s)), s).

Definition update_row (i : Z) (values : Row.t) : M (option (Z * Row.t)) :=
  fun s =>
    match txn s !! i with
    | Some _ =>
        (inr (Some (i, column_coerce values)),
         set_txn (<[i := column_coerce values]> (txn s)) s)
    | None => (inr None, s)
    end.

Definition delete_row (i : Z) : M unit :=
  fun s => (inr tt, set_txn (delete i (txn s)) s).

Definition publish : M unit :=
  fun s =>
    (inr tt,
     mk_session (mk_engine (txn s) (id_seq (bind s)) (faults (bind s))) (txn s)).

(** [db.execute(processed_agent_data.insert().values(...))]: the key comes
    from the sequence. *)
Definition execute_insert (values : Row.t) : M unit :=
  round_trip ;; i ← nextval; insert_row i values.

(** [db.execute(select(processed_agent_data).where(c.id == i)).fetchone()] *)
Definition execute_select_one (i : Z) : M (option (Z * Row.t)) :=
  round_trip ;; select_row i.

(** [db.execute(select(processed_agent_data)).fetchall()] *)
Definition execute_select_all : M (list (Z * Row.t)) :=
  round_trip ;; select_rows.

(** [db.execute(update().where(c.id == i).values(...).returning(table)).fetchone()] *)
Definition execute_update_returning (i : Z) (values : Row.t)
  : M (option (Z * Row.t)) :=
  round_trip ;; update_row i values.

(** [db.execute(processed_agent_data.delete().where(c.id == i))] *)
Definition execute_delete (i : Z) : M unit :=
  round_trip ;; delete_row i.

(** [db.commit()] *)
Definition commit : M unit :=
  round_trip ;; publish.

(** [SessionLocal()] and [db.close()]: what was not committed is lost. *)
Definition SessionLocal (e : Engine) : Session := mk_session e (rows e).

Definition close (s : Session) : Engine := bind s.

(** [str(e)] *)
Definition str (e : Exception) : string :=
  match e with
  | HTTPException c d => str_HTTPException c d
  | SQLAlchemyError msg => msg
  | AttributeError msg => msg
  | TypeError msg => msg
  end.

End Store.

(** ** The process state *)

(** The engine, the global [subscriptions] set, and the log of what
    [send_json] has pushed to which connection. *)
Record World := mk_world {
  engine : Engine;
  subscriptions : gset WebSocket;
  sent : list (WebSocket * string)
}.

(** [json.dumps(..., allow_nan=False)], by which the framework writes the
    body of a reply, takes a float only when it is finite: neither an
    infinity nor a NaN. *)
Definition json_float (f : float) : bool := PrimFloat.is_finite f.

Definition json_record (r : ProcessedAgentDataInDB.t) : bool :=
  json_float (ProcessedAgentDataInDB.x r)
  && json_float (ProcessedAgentDataInDB.y r)
  && json_float (ProcessedAgentDataInDB.z r)
  && json_float (ProcessedAgentDataInDB.latitude r)
  && json_float (ProcessedAgentDataInDB.longitude r).

Definition encodable (resp : Response) : bool :=
  match resp with
  | JSONStatus _ => true
  | JSONRecord r => json_record r
  | JSONList l => forallb json_record l
  | JSONError _ _ => true
  end.

(** Writing the body of what a handler returned.  This happens after the
    handler, outside its [try]: a value that cannot be written is the
    server's own 500. *)
Definition render (resp : Response) : Response :=
  if encodable resp then resp else JSONError 500 "Internal Server Error".

(** What the framework makes of a handler's outcome: a returned value is
    written as the body of the reply, a raised [HTTPException] becomes its
    error reply, anything else that escapes is the server's own 500. *)
Definition respond (r : Exception + Response) : Response :=
  match r with
  | inr resp => render resp
  | inl (HTTPException c d) => JSONError c d
  | inl _ => JSONError 500 "Internal Server Error"
  end.

Arguments render : simpl never.

(** [db: Session = Depends(create_db_session)]: open a session, run the
    handler, close the session whatever happened. *)
Definition create_db_session (handler : M Response) (w : World)
  : Response * World :=
  let '(r, s) := handler (SessionLocal (engine w)) in
  (respond r, mk_world (close s) (subscriptions w) (sent w)).

(** ** CRUD endpoints *)

Section Endpoints.
Context `{External}.

(** The column values both [insert().values(...)] and [update_values]
    take from a request element. *)
Definition request_values (element : ProcessedAgentDataRequest.t) : Row.t :=
  let road_state := ProcessedAgentDataRequest.road_state element in
  let accelerometer :=
    AgentData.accelerometer (ProcessedAgentDataRequest.agent_data element) in
  let gps := AgentData.gps (ProcessedAgentDataRequest.agent_data element) in
  let timestamp :=
    AgentData.timestamp (ProcessedAgentDataRequest.agent_data element) in
  Row.mk road_state
    (AccelerometerData.x accelerometer)
    (AccelerometerData.y accelerometer)
    (AccelerometerData.z accelerometer)
    (GpsData.latitude gps)
    (GpsData.longitude gps)
    timestamp.

(** [ProcessedAgentDataInDB(id=data.id, road_state=data.road_state, ...)] *)
Definition in_db (data : Z * Row.t) : ProcessedAgentDataInDB.t :=
  ProcessedAgentDataInDB.mk (fst data)
    (Row.road_state (snd data))
    (Row.x (snd data)) (Row.y (snd data)) (Row.z (snd data))
    (Row.latitude (snd data)) (Row.longitude (snd data))
    (Row.timestamp (snd data)).

(** [except Exception as e: raise HTTPException(500, f"Error: {str(e)}")] *)
Definition error_handler (e : Exception) : M Response :=
  raise (HTTPException 500 ("Error: " +:+ str e)).

(** [for element in data: db.execute(insert().values(...))] *)
Definition insert_loop (data : list ProcessedAgentDataRequest.t) : M unit :=
  for_each (fun element => execute_insert (request_values element)) data.

Definition create_handler (data : list ProcessedAgentDataRequest.t)
  : M Response :=
  try_except
    (insert_loop data ;;
     commit ;;
     mret (JSONStatus "data added successfully"))
    (fun e => raise (HTTPException 500 "data create failed")).

Definition create_processed_agent_data
  (data : list ProcessedAgentDataRequest.t) : World -> Response * World :=
  create_db_session (create_handler data).

Definition read_handler (processed_agent_data_id : Z) : M Response :=
  try_except
    (data ← execute_select_one processed_agent_data_id;
     match data with
     | None => raise (HTTPException 404 "data not exist")
     | Some data => mret (JSONRecord (in_db data))
     end)
    error_handler.

Definition read_processed_agent_data (processed_agent_data_id : Z)
  : World -> Response * World :=
  create_db_session (read_handler processed_agent_data_id).

Definition list_handler : M Response :=
  try_except
    (getList ← execute_select_all;
     mret (JSONList (in_db <$> getList)))
    error_handler.

Definition list_processed_agent_data : World -> Response * World :=
  create_db_session list_handler.

Definition update_handler (processed_agent_data_id : Z)
  (data : ProcessedAgentDataRequest.t) : M Response :=
  try_except
    (existing_data ← execute_select_one processed_agent_data_id;
     match existing_data with
     | None => raise (HTTPException 404 "data not exist")
     | Some _ =>
         updated_data ←
           execute_update_returning processed_agent_data_id
             (request_values data);
         commit ;;
         match updated_data with
         | None =>
             raise (AttributeError "'NoneType' object has no attribute 'id'")
         | Some updated_data => mret (JSONRecord (in_db updated_data))
         end
     end)
    error_handler.

Definition update_processed_agent_data (processed_agent_data_id : Z)
  (data : ProcessedAgentDataRequest.t) : World -> Response * World :=
  create_db_session (update_handler processed_agent_data_id data).

Definition delete_handler (processed_agent_data_id : Z) : M Response :=
  try_except
    (execute_delete processed_agent_data_id ;;
     commit ;;
     mret (JSONStatus "data deleted successfully"))
    error_handler.

Definition delete_processed_agent_data (processed_agent_data_id : Z)
  : World -> Response * World :=
  create_db_session (delete_handler processed_agent_data_id).

(** The requests the CRUD routes serve, and the route table. *)
Inductive Request :=
| Post (data : list ProcessedAgentDataRequest.t)
| Get (processed_agent_data_id : Z)
| GetAll
| Put (processed_agent_data_id : Z) (data : ProcessedAgentDataRequest.t)
| Delete (processed_agent_data_id : Z).

Definition app (req : Request) : World -> Response * World :=
  match req with
  | Post data => create_processed_agent_data data
  | Get i => read_processed_agent_data i
  | GetAll => list_processed_agent_data
  | Put i data => update_processed_agent_data i data
  | Delete i => delete_processed_agent_data i
  end.

(** Serving requests one after the other; before each, the environment
    fixes which of its round trips will fail. *)
Fixpoint serve (reqs : list (list (option string) * Request)) (w : World)
  : World :=
  match reqs with
  | [] => w
  | (fs, req) :: reqs' =>
      serve reqs'
        (snd (app req
                (mk_world
                   (mk_engine (rows (engine w)) (id_seq (engine w)) fs)
                   (subscriptions w) (sent w))))
  end.

(** How many round trips to the engine a request asks for when none of
    them fails: one [execute] per element and the [commit] for a batch;
    the [select], and for an id that is there the [update] and the
    [commit], for an update. *)
Definition storage_calls (req : Request) (w : World) : nat :=
  match req with
  | Post data => S (length data)
  | Get _ => 1
  | GetAll => 1
  | Put i _ =>
      match rows (engine w) !! i with
      | Some _ => 3
      | None => 1
      end
  | Delete _ => 2
  end.

End Endpoints.

(** ** The WebSocket registry *)

(** The values that meet in [user_id in subscriptions]: the integer that
    is looked for and the connection objects the set holds. *)
Inductive PyObject :=
| PyInt (n : Z)
| PyWebSocket (websocket : WebSocket).

(** [a == b]: integers compare by value, connection objects by identity,
    and an integer is never equal to a connection object. *)
Definition py_eq (a b : PyObject) : bool :=
  match a, b with
  | PyInt m, PyInt n => bool_decide (m = n)
  | PyWebSocket u, PyWebSocket v => bool_decide (u = v)
  | _, _ => false
  end.

(** [x in s] *)
Definition set_contains (x : PyObject) (s : gset WebSocket) : bool :=
  existsb (py_eq x) (PyWebSocket <$> elements s).

(** [s.add(x)] *)
Definition set_add (x : WebSocket) (s : gset WebSocket) : gset WebSocket :=
  {[x]} ∪ s.

Variant SetError := KeyError (key : WebSocket).

(** [s.remove(x)]: Python's [set.remove] raises [KeyError] when [x] is not
    a member. *)
Definition set_remove (x : WebSocket) (s : gset WebSocket)
  : SetError + gset WebSocket :=
  if decide (x ∈ s) then inr (s ∖ {[x]}) else inl (KeyError x).

(** [s[key]]: a set is not subscriptable. *)
Definition set_getitem (s : gset WebSocket) (key : PyObject)
  : Exception + list WebSocket :=
  inl (TypeError "'set' object is not subscriptable").

Definition set_subscriptions (s : gset WebSocket) (w : World) : World :=
  mk_world (engine w) s (sent w).

(** [await websocket.send_json(obj)] *)
Definition send_json (obj : string) (w : World) (websocket : WebSocket)
  : World :=
  mk_world (engine w) (subscriptions w) (sent w ++ [(websocket, obj)]).

(** [websocket_endpoint] up to its loop: accept and register. *)
Definition websocket_connect (websocket : WebSocket) (w : World) : World :=
  set_subscriptions (set_add websocket (subscriptions w)) w.

(** [await websocket.receive_text()] in the loop: the text is dropped. *)
Definition websocket_receive (w : World) (text : string) : World := w.

(** [except WebSocketDisconnect: subscriptions.remove(websocket)] *)
Definition websocket_disconnect (websocket : WebSocket) (w : World)
  : (SetError + unit) * World :=
  match set_remove websocket (subscriptions w) with
  | inl e => (inl e, w)
  | inr s => (inr tt, set_subscriptions s w)
  end.

(** One whole run of [websocket_endpoint] for a client that sends [texts]
    and then disconnects. *)
Definition websocket_endpoint (websocket : WebSocket) (texts : list string)
  (w : World) : (SetError + unit) * World :=
  websocket_disconnect websocket
    (foldl websocket_receive (websocket_connect websocket w) texts).

Section Broadcast.
Context {Data : Type} (json_dumps : Data -> string).

Definition send_data_to_subscribers (user_id : Z) (data : Data) (w : World)
  : (Exception + unit) * World :=
  if set_contains (PyInt user_id) (subscriptions w) then
    match set_getitem (subscriptions w) (PyInt user_id) with
    | inl e => (inl e, w)
    | inr targets => (inr tt, foldl (send_json (json_dumps data)) w targets)
    end
  else (inr tt, w).

End Broadcast.

(** ** Statements about the environment *)

(** No round trip of the coming ones fails. *)
Definition quiet (w : World) : Prop :=
  Forall (fun f => f = None) (faults (engine w)).

(** The sequence is ahead of the table: no row sits under a key the
    sequence has yet to hand out. *)
Definition sequence_ahead (e : Engine) : Prop :=
  ∀ j, id_seq e ≤ j → rows e !! j = None.

(** The same for an open session. *)
Definition calm (s : Session) : Prop :=
  Forall (fun f => f = None) (faults (bind s)).

(** [s1] comes after [s] by engine calls that went through: the
    transaction now sees [t], the committed table and the sequence are
    those of [s], and the coming round trips are those that were left. *)
Definition follows (s s1 : Session) (t : gmap Z Row.t) : Prop :=
  txn s1 = t
  ∧ rows (bind s1) = rows (bind s)
  ∧ id_seq (bind s1) = id_seq (bind s)
  ∧ calm s1.

(** The messages [send_json] has pushed to one connection. *)
Definition received (websocket : WebSocket) (w : World) : list string :=
  snd <$> filter (fun m => fst m = websocket) (sent w).

(** ** Sample inputs *)

(** An engine that stores what it is given, under a framework that prints
    an [HTTPException] as [status: detail]. *)
Definition verbatim : External :=
  {| column_coerce := fun values => values;
     str_HTTPException := fun c d => pretty c +:+ ": " +:+ d |}.

Definition clear_road : ProcessedAgentDataRequest.t :=
  ProcessedAgentDataRequest.mk "clear"
    (AgentData.mk
       (AccelerometerData.mk 1%float 2%float 3%float)
       (GpsData.mk 10%float 20%float)
       (mk_datetime 2024 1 1 0 0 0 0 (Some 0))).

Definition pothole : ProcessedAgentDataRequest.t :=
  ProcessedAgentDataRequest.mk "pothole"
    (AgentData.mk
       (AccelerometerData.mk 0.5%float 0.25%float 9.75%float)
       (GpsData.mk 50.5%float 30.5%float)
       (mk_datetime 2024 3 9 12 30 0 0 None)).

Definition gravel : ProcessedAgentDataRequest.t :=
  ProcessedAgentDataRequest.mk "gravel"
    (AgentData.mk
       (AccelerometerData.mk 0.125%float 1.5%float 9.5%float)
       (GpsData.mk 49.25%float 24.75%float)
       (mk_datetime 2024 3 9 12 31 0 0 None)).

(** A reading whose first accelerometer component overflowed to
    infinity, as the body [1e400] is parsed. *)
Definition blizzard : ProcessedAgentDataRequest.t :=
  ProcessedAgentDataRequest.mk "snow"
    (AgentData.mk
       (AccelerometerData.mk PrimFloat.infinity 0.25%float 9.75%float)
       (GpsData.mk 50.5%float 30.5%float)
       (mk_datetime 2024 3 9 12 30 0 0 None)).

(** An engine whose [DateTime] column keeps no UTC offset. *)
Definition naive_timestamps : External :=
  {| column_coerce := fun values =>
       let t := Row.timestamp values in
       Row.mk (Row.road_state values)
         (Row.x values) (Row.y values) (Row.z values)
         (Row.latitude values) (Row.longitude values)
         (mk_datetime (year t) (month t) (day t)
            (hour t) (minute t) (second t) (microsecond t) None);
     str_HTTPException := fun c d => pretty c +:+ ": " +:+ d |}.

(** An empty table whose sequence starts at 1, nobody connected. *)
Definition empty_world : World := mk_world (mk_engine ∅ 1 []) ∅ [].

(** The same with a script for the coming round trips. *)
Definition faulty_world (fs : list (option string)) : World :=
  mk_world (mk_engine ∅ 1 fs) ∅ [].

(** One row under the id 1, the sequence at 2. *)
Definition one_row_world : World :=
  mk_world (mk_engine {[ 1 := request_values clear_road ]} 2 []) ∅ [].

(** The same with a row whose timestamp has no offset. *)
Definition pothole_world : World :=
  mk_world (mk_engine {[ 1 := request_values pothole ]} 2 []) ∅ [].

(** One row whose first float is infinite. *)
Definition blizzard_world : World :=
  mk_world (mk_engine {[ 1 := request_values blizzard ]} 2 []) ∅ [].

(** Every float the table holds can be written as JSON. *)
Definition finite_table (m : gmap Z Row.t) : Prop :=
  ∀ i row, m !! i = Some row → json_record (in_db (i, row)) = true.

(** Two connections open, empty table. *)
Definition watched_world : World :=
  mk_world (mk_engine ∅ 1 []) {[ 7%nat; 8%nat ]} [].

(** ** Connections coming and going *)

(** What the runs of [websocket_endpoint] do to the registry, seen from
    the process: a run registers its connection when it starts and removes
    it when the client disconnects; runs of several connections
    interleave. *)
Inductive WsEvent :=
| Connected (websocket : WebSocket)
| Disconnected (websocket : WebSocket).

Definition ws_event (ev : WsEvent) (w : World) : (SetError + unit) * World :=
  match ev with
  | Connected h => (inr tt, websocket_connect h w)
  | Disconnected h => websocket_disconnect h w
  end.

(** The events in order, up to the first exception. *)
Fixpoint ws_trace (evs : list WsEvent) (w : World)
  : (SetError + unit) * World :=
  match evs with
  | [] => (inr tt, w)
  | ev :: evs' =>
      match ws_event ev w with
      | (inl e, w') => (inl e, w')
      | (inr _, w') => ws_trace evs' w'
      end
  end.

(** A trace as the endpoint produces it over a registry [s]: a connection
    disconnects once, and only after it has connected (or was already
    registered in [s]). *)
Definition orderly (s : gset WebSocket) (evs : list WsEvent) : Prop :=
  ∀ pre h post,
    evs = pre ++ Disconnected h :: post →
    (Disconnected h ∉ pre) ∧ (Connected h ∈ pre ∨ h ∈ s).

Section Process.
Context `{External} {Data : Type} (json_dumps : Data -> string).

(** Everything that can happen in the process: a CRUD request served
    under a script for its round trips, a WebSocket event, a call of the
    broadcast helper. *)
Inductive Event :=
| Http (fs : list (option string)) (req : Request)
| Ws (ev : WsEvent)
| Broadcast (user_id : Z) (data : Data).

Definition happen (ev : Event) (w : World) : World :=
  match ev with
  | Http fs req =>
      snd (app req
             (mk_world (mk_engine (rows (engine w)) (id_seq (engine w)) fs)
                (subscriptions w) (sent w)))
  | Ws ev => snd (ws_event ev w)
  | Broadcast user_id data =>
      snd (send_data_to_subscribers json_dumps user_id data w)
  end.

Definition history (evs : list Event) (w : World) : World :=
  foldl (fun w ev => happen ev w) w evs.

End Process.

Ltac run :=
  unfold mbind, mret, M_bind, M_ret, bindM, ret, raise, try_except in *.

(** * Properties *)

Section StoreFacts.
Context `{External}.

(** Writing a body either goes through or gives the server's 500. *)
Lemma render_cases (resp : Response) :
  encodable resp = true ∧ render resp = resp
  ∨ encodable resp = false
    ∧ render resp = JSONError 500 "Internal Server Error".
Proof. unfold render. destruct (encodable resp); auto. Qed.

(** A round trip changes neither the committed table, nor the
    transaction's view, nor the sequence. *)
Lemma round_trip_frame (s : Session) :
  rows (bind (snd (round_trip s))) = rows (bind s)
  ∧ id_seq (bind (snd (round_trip s))) = id_seq (bind s)
  ∧ txn (snd (round_trip s)) = txn s.
Proof.
  unfold round_trip. destruct (faults (bind s)) as [|[msg|] fs]; simpl; auto.
Qed.

Lemma execute_insert_spec (values : Row.t) (s : Session) :
  match execute_insert values s with
  | (inr _, s') =>
      txn s !! id_seq (bind s) = None
      ∧ txn s' = <[id_seq (bind s) := column_coerce values]> (txn s)
      ∧ id_seq (bind s') = id_seq (bind s) + 1
      ∧ rows (bind s') = rows (bind s)
  | (inl _, s') => rows (bind s') = rows (bind s)
  end.
Proof.
  unfold execute_insert. run.
  destruct (round_trip_frame s) as (Hr & Hq & Ht).
  destruct (round_trip s) as [[e|[]] s1]; simpl in *; [done|].
  unfold insert_row; simpl. rewrite Ht, Hq.
  destruct (txn s !! id_seq (bind s)) eqn:E; simpl; auto.
Qed.

Lemma commit_spec (s : Session) :
  match commit s with
  | (inr _, s') => rows (bind s') = txn s
  | (inl _, s') => rows (bind s') = rows (bind s)
  end.
Proof.
  unfold commit. run.
  destruct (round_trip_frame s) as (Hr & Hq & Ht).
  destruct (round_trip s) as [[e|[]] s1]; simpl in *; done.
Qed.

Lemma execute_insert_seq (values : Row.t) (s : Session) :
  id_seq (bind s) ≤ id_seq (bind (snd (execute_insert values s))).
Proof.
  unfold execute_insert, nextval, insert_row. run.
  destruct (round_trip_frame s) as (Hr & Hq & Ht).
  destruct (round_trip s) as [[e|[]] s1]; simpl in *; [lia|].
  destruct (txn s1 !! id_seq (bind s1)); simpl; lia.
Qed.

Lemma insert_loop_rows (data : list ProcessedAgentDataRequest.t) :
  ∀ s, rows (bind (snd (insert_loop data s))) = rows (bind s)
       ∧ id_seq (bind s) ≤ id_seq (bind (snd (insert_loop data s))).
Proof.
  induction data as [|el data IH]; intros s; [done|].
  unfold insert_loop in *; simpl. run.
  pose proof (execute_insert_spec (request_values el) s) as Hs.
  pose proof (execute_insert_seq (request_values el) s) as Hq.
  destruct (execute_insert (request_values el) s) as [[e|[]] s1];
    simpl in *; [done|].
  destruct Hs as (_ & _ & _ & Hr). destruct (IH s1) as [IHr IHq].
  split; [congruence | lia].
Qed.

Lemma insert_loop_ok (data : list ProcessedAgentDataRequest.t) :
  ∀ s s', insert_loop data s = (inr tt, s') →
    (∀ (k : nat) el, data !! k = Some el →
       txn s !! (id_seq (bind s) + Z.of_nat k) = None
       ∧ txn s' !! (id_seq (bind s) + Z.of_nat k)
         = Some (column_coerce (request_values el)))
    ∧ (∀ j, j < id_seq (bind s)
            ∨ id_seq (bind s) + Z.of_nat (length data) ≤ j →
          txn s' !! j = txn s !! j)
    ∧ id_seq (bind s') = id_seq (bind s) + Z.of_nat (length data).
Proof.
  induction data as [|el data IH]; intros s s' Hrun.
  - injection Hrun as <-.
    split; [intros k el Hk; by destruct k | split; [done | simpl; lia]].
  - unfold insert_loop in *; simpl in Hrun. run.
    pose proof (execute_insert_spec (request_values el) s) as Hs.
    destruct (execute_insert (request_values el) s) as [[e|[]] s1]; [done|].
    destruct Hs as (Hfresh & Ht & Hq & _).
    destruct (IH _ _ Hrun) as (Hin & Hout & Hseq). rewrite Hq, Ht in *.
    split; [|split; [|simpl length; lia]].
    + intros [|k] el' Hk; simpl in Hk.
      * injection Hk as <-. rewrite Z.add_0_r. split; [done|].
        rewrite Hout by lia. apply lookup_insert_eq.
      * destruct (Hin k el' Hk) as [Hn Hs].
        replace (id_seq (bind s) + Z.of_nat (S k))
          with (id_seq (bind s) + 1 + Z.of_nat k) by lia.
        split; [|done]. rewrite lookup_insert_ne in Hn by lia. done.
    + intros j Hj. simpl length in Hj. rewrite Hout by lia.
      apply lookup_insert_ne. lia.
Qed.

(** C1: a batch is committed whole, with the success reply, or not at
    all, with the error reply.  In the first case the elements sit, in
    input order, under the fresh keys the sequence handed out and every
    other key is as before; in the second the committed table is the one
    before the request. *)
Theorem create_all_or_nothing
  (data : list ProcessedAgentDataRequest.t) (w : World) :
  let resp := fst (create_processed_agent_data data w) in
  let w' := snd (create_processed_agent_data data w) in
  let first := id_seq (engine w) in
  (resp = JSONStatus "data added successfully"
   ∧ (∀ (k : nat) element, data !! k = Some element →
        rows (engine w) !! (first + Z.of_nat k) = None
        ∧ rows (engine w') !! (first + Z.of_nat k)
          = Some (column_coerce (request_values element)))
   ∧ (∀ j, j < first ∨ first + Z.of_nat (length data) ≤ j →
        rows (engine w') !! j = rows (engine w) !! j))
  ∨ (resp = JSONError 500 "data create failed"
     ∧ rows (engine w') = rows (engine w)).
Proof.
  cbv zeta.
  unfold create_processed_agent_data, create_db_session, create_handler.
  run.
  pose proof (insert_loop_rows data (SessionLocal (engine w))) as [Hrows _].
  pose proof (insert_loop_ok data (SessionLocal (engine w))) as Hok.
  destruct (insert_loop data (SessionLocal (engine w))) as [[e|[]] s1];
    simpl in *; [right; done|].
  specialize (Hok s1 eq_refl) as (Hin & Hout & _).
  pose proof (commit_spec s1) as Hc.
  destruct (commit s1) as [[e|[]] s2]; simpl in *.
  - right. split; [done|]. unfold close. congruence.
  - left. unfold close. rewrite Hc. split; [done|]. split.
    + intros k el Hk. exact (Hin k el Hk).
    + intros j Hj. exact (Hout j Hj).
Qed.

(** *** Runs without storage faults *)

Lemma round_trip_calm (s : Session) :
  calm s → ∃ s1, round_trip s = (inr tt, s1) ∧ follows s s1 (txn s).
Proof.
  unfold calm, round_trip, follows. intros Hc.
  destruct (faults (bind s)) as [|f fs] eqn:E.
  - exists s. repeat split; try done. unfold calm. by rewrite E.
  - apply Forall_cons in Hc as [-> Hfs]. eexists; split; [done|]. simpl. auto.
Qed.

Lemma execute_select_one_calm (i : Z) (s : Session) :
  calm s →
  ∃ s1, execute_select_one i s = (inr (pair i <$> txn s !! i), s1)
        ∧ follows s s1 (txn s).
Proof.
  intros Hc. destruct (round_trip_calm s Hc) as (s1 & E & Ht & Hr & Hq & Hc1).
  exists s1. unfold execute_select_one, select_row. run. rewrite E, Ht.
  by repeat split.
Qed.

Lemma execute_update_returning_calm (i : Z) (values old : Row.t) (s : Session) :
  calm s → txn s !! i = Some old →
  ∃ s1, execute_update_returning i values s
        = (inr (Some (i, column_coerce values)), s1)
        ∧ follows s s1 (<[i := column_coerce values]> (txn s)).
Proof.
  intros Hc Hi. destruct (round_trip_calm s Hc) as (s1 & E & Ht & Hr & Hq & Hc1).
  unfold execute_update_returning, update_row. run. rewrite E. simpl.
  rewrite Ht, Hi. eexists; split; [done|]. unfold follows; simpl. auto.
Qed.

Lemma execute_delete_calm (i : Z) (s : Session) :
  calm s →
  ∃ s1, execute_delete i s = (inr tt, s1) ∧ follows s s1 (delete i (txn s)).
Proof.
  intros Hc. destruct (round_trip_calm s Hc) as (s1 & E & Ht & Hr & Hq & Hc1).
  unfold execute_delete, delete_row. run. rewrite E. simpl.
  rewrite Ht. eexists; split; [done|]. unfold follows; simpl. auto.
Qed.

Lemma execute_insert_calm (values : Row.t) (s : Session) :
  calm s → txn s !! id_seq (bind s) = None →
  ∃ s1, execute_insert values s = (inr tt, s1)
        ∧ txn s1 = <[id_seq (bind s) := column_coerce values]> (txn s)
        ∧ rows (bind s1) = rows (bind s)
        ∧ id_seq (bind s1) = id_seq (bind s) + 1
        ∧ calm s1.
Proof.
  intros Hc Hi. destruct (round_trip_calm s Hc) as (s1 & E & Ht & Hr & Hq & Hc1).
  unfold execute_insert, nextval, insert_row. run. rewrite E. simpl.
  rewrite Ht, Hq, Hi. eexists; split; [done|]. simpl. auto.
Qed.

Lemma commit_calm (s : Session) :
  calm s →
  ∃ s1, commit s = (inr tt, s1)
        ∧ rows (bind s1) = txn s
        ∧ id_seq (bind s1) = id_seq (bind s)
        ∧ calm s1.
Proof.
  intros Hc. destruct (round_trip_calm s Hc) as (s1 & E & Ht & Hr & Hq & Hc1).
  unfold commit, publish. run. rewrite E. simpl.
  eexists; split; [done|]. simpl. auto.
Qed.

(** The framework's session handling leaves the registry and the log of
    pushed messages alone. *)
Lemma create_db_session_frame (handler : M Response) (w : World) :
  subscriptions (snd (create_db_session handler w)) = subscriptions w
  ∧ sent (snd (create_db_session handler w)) = sent w.
Proof.
  unfold create_db_session. by destruct (handler _) as [r s].
Qed.

(** *** Create *)

(** C2, as the code has it: whatever the batch and whatever the outcome
    of the write, [create_processed_agent_data] pushes nothing to any
    connection and leaves the registry as it was. *)
Theorem create_sends_nothing
  (data : list ProcessedAgentDataRequest.t) (w : World) :
  sent (snd (create_processed_agent_data data w)) = sent w
  ∧ subscriptions (snd (create_processed_agent_data data w)) = subscriptions w
  ∧ ∀ websocket,
      received websocket (snd (create_processed_agent_data data w))
      = received websocket w.
Proof.
  unfold create_processed_agent_data, received.
  destruct (create_db_session_frame (create_handler data) w) as [Hs Ht].
  by rewrite Hs, Ht.
Qed.

Lemma create_one_quiet (element : ProcessedAgentDataRequest.t) (w : World) :
  quiet w → rows (engine w) !! id_seq (engine w) = None →
  fst (create_processed_agent_data [element] w)
  = JSONStatus "data added successfully"
  ∧ rows (engine (snd (create_processed_agent_data [element] w)))
    = <[id_seq (engine w) := column_coerce (request_values element)]>
        (rows (engine w))
  ∧ quiet (snd (create_processed_agent_data [element] w)).
Proof.
  intros Hq Hfresh.
  unfold create_processed_agent_data, create_db_session, create_handler,
    insert_loop.
  simpl for_each. run.
  destruct (execute_insert_calm (request_values element)
              (SessionLocal (engine w)) Hq Hfresh)
    as (s1 & -> & Ht1 & Hr1 & Hq1 & Hc1).
  destruct (commit_calm s1 Hc1) as (s2 & -> & Hr2 & Hq2 & Hc2).
  simpl. unfold close. rewrite Hr2, Ht1. done.
Qed.

(** *** Read *)

Lemma read_quiet (i : Z) (w : World) :
  quiet w →
  fst (read_processed_agent_data i w)
  = match rows (engine w) !! i with
    | Some row => render (JSONRecord (in_db (i, row)))
    | None =>
        JSONError 500 ("Error: " +:+ str_HTTPException 404 "data not exist")
    end
  ∧ rows (engine (snd (read_processed_agent_data i w))) = rows (engine w)
  ∧ quiet (snd (read_processed_agent_data i w)).
Proof.
  intros Hq.
  unfold read_processed_agent_data, create_db_session, read_handler,
    error_handler.
  run.
  destruct (execute_select_one_calm i (SessionLocal (engine w)) Hq)
    as (s1 & -> & Ht1 & Hr1 & Hq1 & Hc1).
  simpl. destruct (rows (engine w) !! i) as [row|]; simpl; auto.
Qed.

(** C3, what the code does where the claim asks for 404: with the id
    absent and the engine answering, the reply is a 500 whose detail is
    the handler's own 404 exception printed after [Error: ]. *)
Theorem read_absent_is_500 (i : Z) (w : World) :
  quiet w → rows (engine w) !! i = None →
  fst (read_processed_agent_data i w)
  = JSONError 500 ("Error: " +:+ str_HTTPException 404 "data not exist").
Proof.
  intros Hq Hi. destruct (read_quiet i w Hq) as [-> _]. by rewrite Hi.
Qed.

(** No reply of the read endpoint carries the status 404. *)
Lemma read_never_404 (i : Z) (w : World) :
  status_code_of (fst (read_processed_agent_data i w)) ≠ 404.
Proof.
  unfold read_processed_agent_data, create_db_session, read_handler,
    error_handler, execute_select_one, select_row.
  run.
  destruct (round_trip (SessionLocal (engine w))) as [[e|[]] s1]; simpl;
    [done|].
  destruct (txn s1 !! i) as [row|]; simpl; [|done].
  by destruct (render_cases (JSONRecord (in_db (i, row))))
    as [[_ ->]|[_ ->]].
Qed.

(** *** Delete *)

Lemma delete_quiet (i : Z) (w : World) :
  quiet w →
  fst (delete_processed_agent_data i w)
  = JSONStatus "data deleted successfully"
  ∧ rows (engine (snd (delete_processed_agent_data i w)))
    = delete i (rows (engine w))
  ∧ quiet (snd (delete_processed_agent_data i w)).
Proof.
  intros Hq.
  unfold delete_processed_agent_data, create_db_session, delete_handler.
  run.
  destruct (execute_delete_calm i (SessionLocal (engine w)) Hq)
    as (s1 & -> & Ht1 & Hr1 & Hq1 & Hc1).
  destruct (commit_calm s1 Hc1) as (s2 & -> & Hr2 & Hq2 & Hc2).
  simpl. unfold close. rewrite Hr2, Ht1. done.
Qed.

(** C8: with the engine answering, deleting an id gives the success
    reply whether or not the id is in the table; a second delete of the
    same id gives the same reply and changes nothing. *)
Theorem delete_idempotent (i : Z) (w : World) :
  quiet w →
  let w1 := snd (delete_processed_agent_data i w) in
  let w2 := snd (delete_processed_agent_data i w1) in
  fst (delete_processed_agent_data i w)
  = JSONStatus "data deleted successfully"
  ∧ rows (engine w1) = delete i (rows (engine w))
  ∧ (rows (engine w) !! i = None → rows (engine w1) = rows (engine w))
  ∧ fst (delete_processed_agent_data i w1)
    = JSONStatus "data deleted successfully"
  ∧ rows (engine w2) = rows (engine w1).
Proof.
  intros Hq. cbv zeta.
  destruct (delete_quiet i w Hq) as (E1 & R1 & Q1).
  destruct (delete_quiet i _ Q1) as (E2 & R2 & Q2).
  repeat split; try done.
  - intros Hi. rewrite R1. by apply delete_id.
  - rewrite R2, R1. apply delete_id, lookup_delete_eq.
Qed.

(** *** Update *)

Lemma update_quiet (i : Z) (data : ProcessedAgentDataRequest.t) (old : Row.t)
  (w : World) :
  quiet w → rows (engine w) !! i = Some old →
  fst (update_processed_agent_data i data w)
  = render (JSONRecord (in_db (i, column_coerce (request_values data))))
  ∧ rows (engine (snd (update_processed_agent_data i data w)))
    = <[i := column_coerce (request_values data)]> (rows (engine w))
  ∧ quiet (snd (update_processed_agent_data i data w)).
Proof.
  intros Hq Hi.
  unfold update_processed_agent_data, create_db_session, update_handler,
    error_handler.
  run.
  destruct (execute_select_one_calm i (SessionLocal (engine w)) Hq)
    as (s1 & -> & Ht1 & Hr1 & Hq1 & Hc1).
  simpl. rewrite Hi. simpl.
  assert (txn s1 !! i = Some old) as Hi1 by (by rewrite Ht1).
  destruct (execute_update_returning_calm i (request_values data) old s1
              Hc1 Hi1) as (s2 & -> & Ht2 & Hr2 & Hq2 & Hc2).
  destruct (commit_calm s2 Hc2) as (s3 & -> & Hr3 & Hq3 & Hc3).
  simpl. unfold close. rewrite Hr3, Ht2, Ht1. done.
Qed.

(** The update endpoint in general, faults included: a record in the
    reply means the id was in the table, the reply is the image of the
    row now committed under that id, and no other key was touched. *)
Lemma update_success (i : Z) (data : ProcessedAgentDataRequest.t)
  (w : World) (r : ProcessedAgentDataInDB.t) :
  fst (update_processed_agent_data i data w) = JSONRecord r →
  is_Some (rows (engine w) !! i)
  ∧ r = in_db (i, column_coerce (request_values data))
  ∧ rows (engine (snd (update_processed_agent_data i data w)))
    = <[i := column_coerce (request_values data)]> (rows (engine w)).
Proof.
  unfold update_processed_agent_data, create_db_session, update_handler,
    error_handler, execute_select_one, select_row,
    execute_update_returning, update_row, commit, publish.
  run.
  pose proof (round_trip_frame (SessionLocal (engine w))) as (R1 & Q1 & T1).
  destruct (round_trip (SessionLocal (engine w))) as [[e|[]] s1];
    simpl in *; [done|].
  rewrite T1. destruct (rows (engine w) !! i) as [old|] eqn:Hi;
    simpl; [|done].
  pose proof (round_trip_frame s1) as (R2 & Q2 & T2).
  destruct (round_trip s1) as [[e|[]] s2]; simpl in *; [done|].
  rewrite T2, T1, Hi.
  match goal with
  | |- context [round_trip ?s] =>
      pose proof (round_trip_frame s) as (R3 & Q3 & T3);
      destruct (round_trip s) as [[e|[]] s3]; simpl in *; [done|]
  end.
  destruct (render_cases
              (JSONRecord (in_db (i, column_coerce (request_values data)))))
    as [[_ ->]|[_ ->]]; [|done].
  intros [= <-]. by repeat split.
Qed.

(** C9: when an update answers with a record, that record carries the id
    it was asked for, the row committed under that id has the request's
    values, and the table has the same ids as before, every other one
    with the row it had. *)
Theorem update_keeps_id (i : Z) (data : ProcessedAgentDataRequest.t)
  (w : World) (r : ProcessedAgentDataInDB.t) :
  fst (update_processed_agent_data i data w) = JSONRecord r →
  let w' := snd (update_processed_agent_data i data w) in
  ProcessedAgentDataInDB.id r = i
  ∧ rows (engine w') !! i = Some (column_coerce (request_values data))
  ∧ (∀ j, j ≠ i → rows (engine w') !! j = rows (engine w) !! j)
  ∧ dom (rows (engine w')) = dom (rows (engine w)).
Proof.
  intros Hr. cbv zeta.
  destruct (update_success i data w r Hr) as ([old Hi] & Er & Ew).
  subst r. rewrite Ew. repeat split.
  - apply lookup_insert_eq.
  - intros j Hj. by apply lookup_insert_ne.
  - apply dom_insert_lookup_L. by exists old.
Qed.

(** *** Round trips through the table *)

(** The record a request turns into once it sits under the id [i]. *)
Lemma in_db_request (i : Z) (element : ProcessedAgentDataRequest.t) :
  in_db (i, request_values element)
  = ProcessedAgentDataInDB.mk i
      (ProcessedAgentDataRequest.road_state element)
      (AccelerometerData.x (AgentData.accelerometer
         (ProcessedAgentDataRequest.agent_data element)))
      (AccelerometerData.y (AgentData.accelerometer
         (ProcessedAgentDataRequest.agent_data element)))
      (AccelerometerData.z (AgentData.accelerometer
         (ProcessedAgentDataRequest.agent_data element)))
      (GpsData.latitude (AgentData.gps
         (ProcessedAgentDataRequest.agent_data element)))
      (GpsData.longitude (AgentData.gps
         (ProcessedAgentDataRequest.agent_data element)))
      (AgentData.timestamp (ProcessedAgentDataRequest.agent_data element)).
Proof. done. Qed.

(** The record of a row determines the row. *)
Lemma in_db_inj (i : Z) (a b : Row.t) : in_db (i, a) = in_db (i, b) → a = b.
Proof. destruct a, b. unfold in_db; simpl. by intros [= -> -> -> -> -> -> ->]. Qed.

Lemma in_db_is_request (i : Z) (element : ProcessedAgentDataRequest.t)
  (stored : Row.t) :
  in_db (i, stored)
  = ProcessedAgentDataInDB.mk i
         (ProcessedAgentDataRequest.road_state element)
         (AccelerometerData.x (AgentData.accelerometer
            (ProcessedAgentDataRequest.agent_data element)))
         (AccelerometerData.y (AgentData.accelerometer
            (ProcessedAgentDataRequest.agent_data element)))
         (AccelerometerData.z (AgentData.accelerometer
            (ProcessedAgentDataRequest.agent_data element)))
         (GpsData.latitude (AgentData.gps
            (ProcessedAgentDataRequest.agent_data element)))
         (GpsData.longitude (AgentData.gps
            (ProcessedAgentDataRequest.agent_data element)))
         (AgentData.timestamp (ProcessedAgentDataRequest.agent_data element))
  ↔ stored = request_values element.
Proof.
  rewrite <- in_db_request. split; [apply in_db_inj | by intros ->].
Qed.

(** C4, as the code has it: with the engine answering and the next key of
    the sequence free, creating the one-element batch [[element]]
    succeeds and commits the element's values as the columns store them
    under the id the sequence handed out.  Reading that id returns the
    image of that row where its floats are finite, and the server's 500
    where one is not.  The image is the element's road state,
    accelerometer vector, position and timestamp under the id exactly
    when the columns store these values as they are. *)
Theorem create_then_read (element : ProcessedAgentDataRequest.t) (w : World) :
  quiet w →
  rows (engine w) !! id_seq (engine w) = None →
  let assigned := id_seq (engine w) in
  let w' := snd (create_processed_agent_data [element] w) in
  let stored := column_coerce (request_values element) in
  fst (create_processed_agent_data [element] w)
  = JSONStatus "data added successfully"
  ∧ rows (engine w') !! assigned = Some stored
  ∧ fst (read_processed_agent_data assigned w')
    = (if json_record (in_db (assigned, stored))
       then JSONRecord (in_db (assigned, stored))
       else JSONError 500 "Internal Server Error")
  ∧ (in_db (assigned, stored)
     = ProcessedAgentDataInDB.mk assigned
         (ProcessedAgentDataRequest.road_state element)
         (AccelerometerData.x (AgentData.accelerometer
            (ProcessedAgentDataRequest.agent_data element)))
         (AccelerometerData.y (AgentData.accelerometer
            (ProcessedAgentDataRequest.agent_data element)))
         (AccelerometerData.z (AgentData.accelerometer
            (ProcessedAgentDataRequest.agent_data element)))
         (GpsData.latitude (AgentData.gps
            (ProcessedAgentDataRequest.agent_data element)))
         (GpsData.longitude (AgentData.gps
            (ProcessedAgentDataRequest.agent_data element)))
         (AgentData.timestamp (ProcessedAgentDataRequest.agent_data element))
     ↔ stored = request_values element).
Proof.
  intros Hq Hfresh. cbv zeta.
  destruct (create_one_quiet element w Hq Hfresh) as (E1 & R1 & Q1).
  split; [done|].
  destruct (read_quiet (id_seq (engine w)) _ Q1) as (-> & _).
  rewrite R1, lookup_insert_eq.
  split; [done|]. split; [done|]. apply in_db_is_request.
Qed.

(** C5, as the code has it: with the engine answering and the id in the
    table, an update commits the request's values as the columns store
    them under the id.  Where the floats of that row are finite the
    update answers with the image of the row and a read of the id
    afterwards returns the same record; where one is not, the row is
    committed all the same and update and read are both answered with
    the server's 500.  The image is the request's road state,
    accelerometer vector, position and timestamp under the id exactly
    when the columns store these values as they are. *)
Theorem update_then_read (i : Z) (data : ProcessedAgentDataRequest.t)
  (w : World) :
  quiet w →
  is_Some (rows (engine w) !! i) →
  let w' := snd (update_processed_agent_data i data w) in
  let stored := column_coerce (request_values data) in
  rows (engine w') !! i = Some stored
  ∧ fst (update_processed_agent_data i data w)
    = (if json_record (in_db (i, stored))
       then JSONRecord (in_db (i, stored))
       else JSONError 500 "Internal Server Error")
  ∧ fst (read_processed_agent_data i w')
    = fst (update_processed_agent_data i data w)
  ∧ (in_db (i, stored)
     = ProcessedAgentDataInDB.mk i
         (ProcessedAgentDataRequest.road_state data)
         (AccelerometerData.x (AgentData.accelerometer
            (ProcessedAgentDataRequest.agent_data data)))
         (AccelerometerData.y (AgentData.accelerometer
            (ProcessedAgentDataRequest.agent_data data)))
         (AccelerometerData.z (AgentData.accelerometer
            (ProcessedAgentDataRequest.agent_data data)))
         (GpsData.latitude (AgentData.gps
            (ProcessedAgentDataRequest.agent_data data)))
         (GpsData.longitude (AgentData.gps
            (ProcessedAgentDataRequest.agent_data data)))
         (AgentData.timestamp (ProcessedAgentDataRequest.agent_data data))
     ↔ stored = request_values data).
Proof.
  intros Hq [old Hi]. cbv zeta.
  destruct (update_quiet i data old w Hq Hi) as (E1 & R1 & Q1).
  destruct (read_quiet i _ Q1) as (E2 & _).
  rewrite E1, E2, R1, lookup_insert_eq.
  split; [done|]. split; [done|]. split; [done|]. apply in_db_is_request.
Qed.

(** *** Storage errors *)

Lemma round_trip_fault (msg : string) (fs : list (option string))
  (s : Session) :
  faults (bind s) = Some msg :: fs →
  round_trip s = (inl (SQLAlchemyError msg), set_faults fs s).
Proof. unfold round_trip. by intros ->. Qed.

Lemma round_trip_pass (fs : list (option string)) (s : Session) :
  faults (bind s) = None :: fs → round_trip s = (inr tt, set_faults fs s).
Proof. unfold round_trip. by intros ->. Qed.

(** Where the insert loop gets through, it has used up one entry of the
    script per element, none of them a fault. *)
Lemma insert_loop_faults (data : list ProcessedAgentDataRequest.t) :
  ∀ s s' (k : nat) msg fs,
    insert_loop data s = (inr tt, s') →
    faults (bind s) = replicate k None ++ Some msg :: fs →
    (length data ≤ k)%nat
    ∧ faults (bind s') = replicate (k - length data) None ++ Some msg :: fs.
Proof.
  induction data as [|el data IH]; intros s s' k msg fs Hrun Hf.
  - injection Hrun as <-. simpl. rewrite Nat.sub_0_r. split; [lia | done].
  - unfold insert_loop in *; simpl in Hrun.
    unfold execute_insert, nextval, insert_row in Hrun. run.
    destruct k as [|k]; simpl in Hf.
    + by rewrite (round_trip_fault _ _ _ Hf) in Hrun.
    + rewrite (round_trip_pass _ _ Hf) in Hrun. simpl in Hrun.
      destruct (txn s !! id_seq (bind s)); [done|].
      apply IH with (k := k) (msg := msg) (fs := fs) in Hrun; [|done].
      destruct Hrun as [Hle Hfs]. simpl. split; [lia | done].
Qed.

Lemma create_reply_cases (data : list ProcessedAgentDataRequest.t)
  (w : World) :
  fst (create_processed_agent_data data w)
  = JSONStatus "data added successfully"
  ∨ fst (create_processed_agent_data data w)
    = JSONError 500 "data create failed".
Proof.
  unfold create_processed_agent_data, create_db_session, create_handler.
  run.
  destruct (insert_loop data (SessionLocal (engine w))) as [[e|[]] s1];
    simpl; [by right|].
  destruct (commit s1) as [[e|[]] s2]; simpl; [by right | by left].
Qed.

Lemma create_fault_fails (data : list ProcessedAgentDataRequest.t)
  (k : nat) (msg : string) (fs : list (option string)) (w : World) :
  faults (engine w) = replicate k None ++ Some msg :: fs →
  (k ≤ length data)%nat →
  fst (create_processed_agent_data data w)
  = JSONError 500 "data create failed".
Proof.
  intros Hf Hk.
  unfold create_processed_agent_data, create_db_session, create_handler.
  run.
  pose proof (insert_loop_faults data (SessionLocal (engine w))) as Hl.
  destruct (insert_loop data (SessionLocal (engine w))) as [[e|[]] s1];
    simpl; [done|].
  destruct (Hl s1 k msg fs eq_refl Hf) as [Hle Hfs].
  replace (k - length data)%nat with 0%nat in Hfs by lia. simpl in Hfs.
  unfold commit. run. by rewrite (round_trip_fault _ _ _ Hfs).
Qed.

(** C6, as the code has it: when a round trip of a request fails with an
    error that prints as [msg], after any number of round trips that went
    through, the reply is a 500 whose detail is the fixed text
    [data create failed] for create and [Error: ] followed by [msg]
    itself for read, list, update and delete. *)
Theorem storage_error_detail (req : Request) (k : nat) (msg : string)
  (fs : list (option string)) (w : World) :
  faults (engine w) = replicate k None ++ Some msg :: fs →
  (k < storage_calls req w)%nat →
  fst (app req w)
  = JSONError 500
      match req with
      | Post _ => "data create failed"
      | _ => "Error: " +:+ msg
      end.
Proof.
  intros Hf Hk. destruct req as [data|i| |i data|i]; simpl in Hk |- *.
  - apply (create_fault_fails data k msg fs w Hf). lia.
  - destruct k as [|k]; [|lia]. simpl in Hf.
    unfold read_processed_agent_data, create_db_session, read_handler,
      error_handler, execute_select_one, round_trip.
    run. simpl. by rewrite Hf.
  - destruct k as [|k]; [|lia]. simpl in Hf.
    unfold list_processed_agent_data, create_db_session, list_handler,
      error_handler, execute_select_all, round_trip.
    run. simpl. by rewrite Hf.
  - unfold update_processed_agent_data, create_db_session, update_handler,
      error_handler, execute_select_one, select_row,
      execute_update_returning, update_row, commit, publish, round_trip.
    run. simpl.
    destruct (rows (engine w) !! i) as [old|] eqn:Hi.
    + destruct k as [|[|[|k]]]; [| | |lia]; simpl in Hf; rewrite Hf; simpl;
        rewrite ?Hi; simpl; rewrite ?Hi; done.
    + destruct k as [|k]; [|lia]. simpl in Hf. by rewrite Hf.
  - unfold delete_processed_agent_data, create_db_session, delete_handler,
      error_handler, execute_delete, delete_row, commit, publish, round_trip.
    run. simpl.
    destruct k as [|[|k]]; [| |lia]; simpl in Hf; rewrite Hf; done.
Qed.

(** *** The sequence stays ahead of the table *)

Lemma create_engine (data : list ProcessedAgentDataRequest.t) (w : World) :
  sequence_ahead (engine w) →
  sequence_ahead (engine (snd (create_processed_agent_data data w))).
Proof.
  intros Hw.
  unfold create_processed_agent_data, create_db_session, create_handler.
  run.
  pose proof (insert_loop_rows data (SessionLocal (engine w))) as [Hr Hq].
  pose proof (insert_loop_ok data (SessionLocal (engine w))) as Hok.
  destruct (insert_loop data (SessionLocal (engine w))) as [[e|[]] s1];
    simpl in *.
  - intros j Hj. unfold close in *. rewrite Hr. apply Hw. lia.
  - specialize (Hok s1 eq_refl) as (_ & Hout & Hseq).
    unfold commit, publish. run.
    destruct (round_trip_frame s1) as (R2 & Q2 & T2).
    destruct (round_trip s1) as [[e|[]] s2]; simpl in *;
      intros j Hj; unfold close in *; simpl in *.
    + rewrite R2, Hr. apply Hw. lia.
    + rewrite T2, Hout by lia. apply Hw. lia.
Qed.

Lemma read_engine (i : Z) (w : World) :
  rows (engine (snd (read_processed_agent_data i w))) = rows (engine w)
  ∧ id_seq (engine (snd (read_processed_agent_data i w))) = id_seq (engine w).
Proof.
  unfold read_processed_agent_data, create_db_session, read_handler,
    error_handler, execute_select_one, select_row.
  run.
  destruct (round_trip_frame (SessionLocal (engine w))) as (R1 & Q1 & T1).
  destruct (round_trip (SessionLocal (engine w))) as [[e|[]] s1];
    simpl in *; [done|].
  destruct (txn s1 !! i); simpl; done.
Qed.

Lemma list_engine (w : World) :
  rows (engine (snd (list_processed_agent_data w))) = rows (engine w)
  ∧ id_seq (engine (snd (list_processed_agent_data w))) = id_seq (engine w).
Proof.
  unfold list_processed_agent_data, create_db_session, list_handler,
    error_handler, execute_select_all, select_rows.
  run.
  destruct (round_trip_frame (SessionLocal (engine w))) as (R1 & Q1 & T1).
  destruct (round_trip (SessionLocal (engine w))) as [[e|[]] s1];
    simpl in *; done.
Qed.

Lemma update_engine (i : Z) (data : ProcessedAgentDataRequest.t) (w : World) :
  (rows (engine (snd (update_processed_agent_data i data w)))
   = rows (engine w)
   ∨ is_Some (rows (engine w) !! i)
     ∧ rows (engine (snd (update_processed_agent_data i data w)))
       = <[i := column_coerce (request_values data)]> (rows (engine w)))
  ∧ id_seq (engine (snd (update_processed_agent_data i data w)))
    = id_seq (engine w).
Proof.
  unfold update_processed_agent_data, create_db_session, update_handler,
    error_handler, execute_select_one, select_row,
    execute_update_returning, update_row, commit, publish.
  run.
  pose proof (round_trip_frame (SessionLocal (engine w))) as (R1 & Q1 & T1).
  destruct (round_trip (SessionLocal (engine w))) as [[e|[]] s1];
    simpl in *; [auto|].
  rewrite T1. destruct (rows (engine w) !! i) as [old|] eqn:Hi;
    simpl; [|auto].
  pose proof (round_trip_frame s1) as (R2 & Q2 & T2).
  destruct (round_trip s1) as [[e|[]] s2]; simpl in *;
    [unfold close; split; [left|]; congruence|].
  rewrite T2, T1, Hi.
  match goal with
  | |- context [round_trip ?s] =>
      pose proof (round_trip_frame s) as (R3 & Q3 & T3);
      destruct (round_trip s) as [[e|[]] s3]; simpl in *
  end.
  - unfold close. split; [left|]; congruence.
  - unfold close. simpl.
    split; [right; split; [by eexists | by rewrite T3] | congruence].
Qed.

Lemma delete_engine (i : Z) (w : World) :
  (rows (engine (snd (delete_processed_agent_data i w))) = rows (engine w)
   ∨ rows (engine (snd (delete_processed_agent_data i w)))
     = delete i (rows (engine w)))
  ∧ id_seq (engine (snd (delete_processed_agent_data i w)))
    = id_seq (engine w).
Proof.
  unfold delete_processed_agent_data, create_db_session, delete_handler,
    error_handler, execute_delete, delete_row, commit, publish.
  run.
  pose proof (round_trip_frame (SessionLocal (engine w))) as (R1 & Q1 & T1).
  destruct (round_trip (SessionLocal (engine w))) as [[e|[]] s1];
    simpl in *; [auto|].
  match goal with
  | |- context [round_trip ?s] =>
      pose proof (round_trip_frame s) as (R3 & Q3 & T3);
      destruct (round_trip s) as [[e|[]] s3]; simpl in *
  end.
  - unfold close. split; [left|]; congruence.
  - unfold close. simpl. split; [right; by rewrite T3, T1 | congruence].
Qed.

(** Every route keeps the sequence ahead of the table, whatever the
    request and whichever round trips fail. *)
Lemma app_sequence_ahead (req : Request) (w : World) :
  sequence_ahead (engine w) → sequence_ahead (engine (snd (app req w))).
Proof.
  intros Hw. destruct req as [data|i| |i data|i]; simpl.
  - by apply create_engine.
  - destruct (read_engine i w) as [Hr Hq]. intros j Hj.
    rewrite Hr. apply Hw. lia.
  - destruct (list_engine w) as [Hr Hq]. intros j Hj.
    rewrite Hr. apply Hw. lia.
  - destruct (update_engine i data w) as [[Hr|[[old Hi] Hr]] Hq];
      intros j Hj; rewrite Hr; rewrite Hq in Hj.
    + by apply Hw.
    + rewrite lookup_insert_ne; [by apply Hw|].
      intros ->. rewrite (Hw j Hj) in Hi. done.
  - destruct (delete_engine i w) as [[Hr|Hr] Hq];
      intros j Hj; rewrite Hr; rewrite Hq in Hj.
    + by apply Hw.
    + destruct (decide (i = j)) as [->|Hne].
      * apply lookup_delete_eq.
      * rewrite lookup_delete_ne by done. by apply Hw.
Qed.

(** After any sequence of requests on a table the sequence was ahead
    of, the key the sequence hands out next is free. *)
Lemma serve_next_key_free
  (reqs : list (list (option string) * Request)) :
  ∀ w, sequence_ahead (engine w) →
    rows (engine (serve reqs w)) !! id_seq (engine (serve reqs w)) = None.
Proof.
  induction reqs as [|[fs req] reqs IH]; intros w Hw; simpl.
  - apply Hw. lia.
  - apply IH, app_sequence_ahead. exact Hw.
Qed.

End StoreFacts.

(** ** The registry and the broadcast helper *)

Section RegistryFacts.

Lemma set_remove_present (h : WebSocket) (s : gset WebSocket) :
  h ∈ s → set_remove h s = inr (s ∖ {[h]}).
Proof. intros Hh. unfold set_remove. by rewrite decide_True. Qed.

Lemma foldl_websocket_receive (texts : list string) (w : World) :
  foldl websocket_receive w texts = w.
Proof. induction texts as [|t texts IH]; [done|]. simpl. apply IH. Qed.

(** A run of the endpoint removes what it added: its own removal never
    raises, and the registry ends as it began, less the connection. *)
Lemma websocket_endpoint_returns (h : WebSocket) (texts : list string)
  (w : World) :
  websocket_endpoint h texts w
  = (inr tt, set_subscriptions (subscriptions w ∖ {[h]}) w).
Proof.
  unfold websocket_endpoint, websocket_disconnect.
  rewrite foldl_websocket_receive.
  unfold websocket_connect, set_subscriptions, set_add.
  cbn [subscriptions engine sent].
  rewrite set_remove_present
    by (apply elem_of_union_l, elem_of_singleton; reflexivity).
  do 2 f_equal. apply set_eq. intros k.
  rewrite !elem_of_difference, elem_of_union, elem_of_singleton. tauto.
Qed.

(** C7, as the code has it: removing a connection that is not in the
    registry raises [KeyError] and leaves the registry as it was; the
    removal goes through exactly when the connection is there, as it is
    at the one place the endpoint removes it. *)
Theorem remove_absent_raises (h : WebSocket) (w : World) :
  h ∉ subscriptions w →
  set_remove h (subscriptions w) = inl (KeyError h)
  ∧ websocket_disconnect h w = (inl (KeyError h), w)
  ∧ ∀ texts, fst (websocket_endpoint h texts w) = inr tt.
Proof.
  intros Hh.
  assert (set_remove h (subscriptions w) = inl (KeyError h)) as E
    by (unfold set_remove; by rewrite decide_False).
  repeat split.
  - done.
  - unfold websocket_disconnect. by rewrite E.
  - intros texts. by rewrite websocket_endpoint_returns.
Qed.

Lemma set_contains_int (n : Z) (s : gset WebSocket) :
  set_contains (PyInt n) s = false.
Proof.
  unfold set_contains. induction (elements s) as [|h l IH]; [done|].
  simpl. exact IH.
Qed.

(** C10: for every integer [user_id] and every [data],
    [send_data_to_subscribers] returns normally, pushes nothing and
    changes nothing: the integer is no member of a set of connections. *)
Theorem send_data_to_subscribers_sends_nothing {Data : Type}
  (json_dumps : Data → string) (user_id : Z) (data : Data) (w : World) :
  set_contains (PyInt user_id) (subscriptions w) = false
  ∧ send_data_to_subscribers json_dumps user_id data w = (inr tt, w).
Proof.
  unfold send_data_to_subscribers. rewrite set_contains_int. done.
Qed.

End RegistryFacts.

(** ** The theorems at sample inputs *)

Section Samples.
#[local] Existing Instance verbatim.

Lemma quiet_nil (w : World) : faults (engine w) = [] → quiet w.
Proof. unfold quiet. intros ->. apply Forall_nil_2. Defined.

(** C2, the claim as stated fails: with two connections open, a batch of
    one record is committed and acknowledged, and neither connection has
    received anything. *)
Lemma create_notifies_nobody :
  ¬ (∀ (data : list ProcessedAgentDataRequest.t) (w : World),
       fst (create_processed_agent_data data w)
       = JSONStatus "data added successfully" →
       ∀ websocket, websocket ∈ subscriptions w →
         length (received websocket
                   (snd (create_processed_agent_data data w)))
         = (length (received websocket w) + length data)%nat).
Proof.
  intros Hclaim.
  specialize (Hclaim [clear_road] watched_world eq_refl 7%nat).
  assert (7%nat ∈ subscriptions watched_world) as Hin
    by (apply elem_of_union_l, elem_of_singleton; reflexivity).
  specialize (Hclaim Hin). vm_compute in Hclaim. discriminate.
Qed.

(** C3 at [GET /processed_agent_data/999] on the empty table. *)
Lemma read_absent_is_500_witness :
  quiet empty_world
  ∧ rows (engine empty_world) !! 999 = None
  ∧ fst (read_processed_agent_data 999 empty_world)
    = JSONError 500 "Error: 404: data not exist".
Proof.
  split; [exact (quiet_nil empty_world eq_refl)|].
  split; [reflexivity|].
  exact (read_absent_is_500 999 empty_world
           (quiet_nil empty_world eq_refl) eq_refl).
Defined.

(** C6, the claim as stated fails: two storage errors that differ only in
    their message give two different replies of the read endpoint. *)
Lemma read_detail_leaks :
  ¬ (∀ (msg1 msg2 : string),
       fst (read_processed_agent_data 1 (faulty_world [Some msg1]))
       = fst (read_processed_agent_data 1 (faulty_world [Some msg2]))).
Proof.
  intros Hclaim.
  specialize (Hclaim "connection refused" "relation does not exist").
  vm_compute in Hclaim. discriminate.
Qed.

(** C6 at a commit the engine refuses after the delete went through. *)
Lemma storage_error_detail_witness :
  faults (engine (faulty_world [None; Some "connection refused"]))
  = replicate 1 None ++ [Some "connection refused"]
  ∧ (1 < storage_calls (Delete 1)
           (faulty_world [None; Some "connection refused"]))%nat
  ∧ fst (delete_processed_agent_data 1
           (faulty_world [None; Some "connection refused"]))
    = JSONError 500 "Error: connection refused".
Proof.
  split; [reflexivity|]. split; [exact (le_n 2)|].
  exact (storage_error_detail (Delete 1) 1 "connection refused" []
           (faulty_world [None; Some "connection refused"])
           eq_refl (le_n 2)).
Defined.

(** C7, the claim as stated fails: removing a connection from the empty
    registry is no silent no-op. *)
Lemma remove_absent_is_no_noop :
  ¬ (∀ (h : WebSocket) (w : World),
       h ∉ subscriptions w → websocket_disconnect h w = (inr tt, w)).
Proof.
  intros Hclaim.
  specialize (Hclaim 7%nat empty_world (not_elem_of_empty 7%nat)).
  vm_compute in Hclaim. discriminate.
Qed.

(** C7 at the empty registry. *)
Lemma remove_absent_raises_witness :
  (7%nat ∉ subscriptions empty_world)
  ∧ websocket_disconnect 7%nat empty_world
    = (inl (KeyError 7%nat), empty_world).
Proof.
  pose proof (remove_absent_raises 7%nat empty_world
                (not_elem_of_empty 7%nat)) as (_ & Hd & _).
  split; [exact (not_elem_of_empty 7%nat) | exact Hd].
Defined.

(** C8 at an id the empty table does not hold. *)
Lemma delete_idempotent_witness :
  quiet empty_world
  ∧ fst (delete_processed_agent_data 5 empty_world)
    = JSONStatus "data deleted successfully"
  ∧ fst (delete_processed_agent_data 5
           (snd (delete_processed_agent_data 5 empty_world)))
    = JSONStatus "data deleted successfully".
Proof.
  pose proof (delete_idempotent 5 empty_world (quiet_nil empty_world eq_refl))
    as (H1 & _ & _ & H2 & _).
  split; [exact (quiet_nil empty_world eq_refl)|].
  split; [exact H1 | exact H2].
Defined.

(** C9 at the one-row table. *)
Lemma update_keeps_id_witness :
  fst (update_processed_agent_data 1 pothole one_row_world)
  = JSONRecord (in_db (1, request_values pothole))
  ∧ ProcessedAgentDataInDB.id (in_db (1, request_values pothole)) = 1
  ∧ dom (rows (engine
           (snd (update_processed_agent_data 1 pothole one_row_world))))
    = dom (rows (engine one_row_world)).
Proof.
  pose proof (update_keeps_id 1 pothole one_row_world
                (in_db (1, request_values pothole)) eq_refl)
    as (Hid & _ & _ & Hdom).
  split; [reflexivity|]. split; [exact Hid | exact Hdom].
Defined.

End Samples.

(** With a column that drops the UTC offset, the record an update answers
    with is the row as stored, not the request sent back. *)
Example update_returns_row_image :
  fst (@update_processed_agent_data naive_timestamps 1 clear_road
         one_row_world)
  = JSONRecord
      (ProcessedAgentDataInDB.mk 1 "clear" 1%float 2%float 3%float
         10%float 20%float (mk_datetime 2024 1 1 0 0 0 0 None))
  ∧ AgentData.timestamp (ProcessedAgentDataRequest.agent_data clear_road)
    = mk_datetime 2024 1 1 0 0 0 0 (Some 0).
Proof. split; reflexivity. Qed.

(** * Further properties of the routes *)

Section RouteFacts.
Context `{External}.

Lemma list_quiet (w : World) :
  quiet w →
  fst (list_processed_agent_data w)
  = render (JSONList (in_db <$> map_to_list (rows (engine w))))
  ∧ rows (engine (snd (list_processed_agent_data w))) = rows (engine w)
  ∧ quiet (snd (list_processed_agent_data w)).
Proof.
  intros Hq.
  unfold list_processed_agent_data, create_db_session, list_handler,
    error_handler, execute_select_all, select_rows.
  run.
  destruct (round_trip_calm (SessionLocal (engine w)) Hq)
    as (s1 & -> & Ht1 & Hr1 & Hq1 & Hc1).
  simpl. rewrite Ht1. done.
Qed.

Lemma render_finite_record (i : Z) (row : Row.t) :
  json_record (in_db (i, row)) = true →
  render (JSONRecord (in_db (i, row))) = JSONRecord (in_db (i, row)).
Proof. intros Hf. unfold render. simpl. by rewrite Hf. Qed.

Lemma render_finite_table (m : gmap Z Row.t) :
  finite_table m →
  render (JSONList (in_db <$> map_to_list m))
  = JSONList (in_db <$> map_to_list m).
Proof.
  intros Hm. unfold render. simpl.
  replace (forallb json_record (in_db <$> map_to_list m)) with true; [done|].
  symmetry. apply forallb_forall. intros r Hr.
  apply list_elem_of_In, list_elem_of_fmap in Hr as ([i row] & -> & Hin).
  apply elem_of_map_to_list in Hin. by apply Hm.
Qed.

(** X1: with the engine answering and every float in the table finite,
    the list route returns one record per row of the table, no id twice,
    and a record is in the list exactly when the read route returns it
    for its id. *)
Theorem list_matches_read (w : World) :
  quiet w →
  finite_table (rows (engine w)) →
  ∃ l, fst (list_processed_agent_data w) = JSONList l
       ∧ length l = size (rows (engine w))
       ∧ NoDup (ProcessedAgentDataInDB.id <$> l)
       ∧ ∀ r, r ∈ l
              ↔ fst (read_processed_agent_data (ProcessedAgentDataInDB.id r) w)
                = JSONRecord r.
Proof.
  intros Hq Hm. destruct (list_quiet w Hq) as (E & _).
  rewrite (render_finite_table _ Hm) in E.
  exists (in_db <$> map_to_list (rows (engine w))).
  split; [done|]. split; [|split].
  - by rewrite length_fmap, length_map_to_list.
  - rewrite <- list_fmap_compose.
    replace (ProcessedAgentDataInDB.id ∘ in_db)
      with (fst : Z * Row.t → Z) by done.
    apply NoDup_fst_map_to_list.
  - intros r. destruct (read_quiet (ProcessedAgentDataInDB.id r) w Hq)
      as (-> & _).
    rewrite list_elem_of_fmap. split.
    + intros ([i row] & -> & Hin). apply elem_of_map_to_list in Hin.
      simpl. rewrite Hin. apply render_finite_record. by apply Hm.
    + destruct (rows (engine w) !! ProcessedAgentDataInDB.id r)
        as [row|] eqn:Hi; [|done].
      rewrite (render_finite_record _ _ (Hm _ _ Hi)).
      intros [= <-]. exists (ProcessedAgentDataInDB.id r, row).
      split; [done|]. by apply elem_of_map_to_list.
Qed.

Lemma render_infinite_table (m : gmap Z Row.t) (i : Z) (row : Row.t) :
  m !! i = Some row → json_record (in_db (i, row)) = false →
  render (JSONList (in_db <$> map_to_list m))
  = JSONError 500 "Internal Server Error".
Proof.
  intros Hi Hf. unfold render. simpl.
  destruct (forallb json_record (in_db <$> map_to_list m)) eqn:E; [|done].
  rewrite forallb_forall in E.
  rewrite E in Hf; [done|].
  apply list_elem_of_In, list_elem_of_fmap. exists (i, row).
  split; [done|]. by apply elem_of_map_to_list.
Qed.

(** X12: with the engine answering, one row holding a float that is not
    finite is enough for the list route to answer the server's 500
    instead of the list, as the read route does for that row's id. *)
Theorem list_breaks_on_one_row (i : Z) (row : Row.t) (w : World) :
  quiet w →
  rows (engine w) !! i = Some row →
  json_record (in_db (i, row)) = false →
  fst (list_processed_agent_data w) = JSONError 500 "Internal Server Error"
  ∧ fst (read_processed_agent_data i w)
    = JSONError 500 "Internal Server Error".
Proof.
  intros Hq Hi Hf. split.
  - destruct (list_quiet w Hq) as (-> & _).
    by apply (render_infinite_table _ i row).
  - destruct (read_quiet i w Hq) as (-> & _). rewrite Hi.
    unfold render. simpl. by rewrite Hf.
Qed.

(** What goes out as a reply can always be written: a record or a list
    in a reply holds finite floats only, so the 200 that [status_code_of]
    gives them is the status they are sent with. *)
Lemma respond_encodable (r : Exception + Response) :
  encodable (respond r) = true.
Proof.
  destruct r as [[]|resp]; simpl; try done.
  by destruct (render_cases resp) as [[E ->]|[_ ->]].
Qed.

Lemma app_encodable (req : Request) (w : World) :
  encodable (fst (app req w)) = true.
Proof.
  destruct req; simpl;
    unfold create_processed_agent_data, read_processed_agent_data,
      list_processed_agent_data, update_processed_agent_data,
      delete_processed_agent_data, create_db_session;
    match goal with
    | |- context [?hd (SessionLocal (engine w))] =>
        destruct (hd (SessionLocal (engine w))) as [r s]
    end; simpl; apply respond_encodable.
Qed.

(** Each route either answers with a 200, or answers with a 500 and has
    left the committed table as it was, or is an update that committed a
    row whose image could not be written. *)
Lemma app_reply_cases (req : Request) (w : World) :
  status_code_of (fst (app req w)) = 200
  ∨ status_code_of (fst (app req w)) = 500
    ∧ (rows (engine (snd (app req w))) = rows (engine w)
       ∨ ∃ i data,
           req = Put i data
           ∧ is_Some (rows (engine w) !! i)
           ∧ json_record (in_db (i, column_coerce (request_values data)))
             = false
           ∧ fst (app req w) = JSONError 500 "Internal Server Error"
           ∧ rows (engine (snd (app req w)))
             = <[i := column_coerce (request_values data)]>
                 (rows (engine w))).
Proof.
  destruct req as [data|i| |i data|i]; simpl.
  - unfold create_processed_agent_data, create_db_session, create_handler.
    run.
    pose proof (insert_loop_rows data (SessionLocal (engine w))) as [Hr _].
    destruct (insert_loop data (SessionLocal (engine w))) as [[e|[]] s1];
      simpl in *; [right; split; [done | by left]|].
    pose proof (commit_spec s1) as Hc.
    destruct (commit s1) as [[e|[]] s2]; simpl in *; [|by left].
    right. split; [done|]. left. unfold close. congruence.
  - destruct (read_engine i w) as [Hr _].
    unfold read_processed_agent_data, create_db_session, read_handler,
      error_handler, execute_select_one, select_row in *.
    run.
    destruct (round_trip (SessionLocal (engine w))) as [[e|[]] s1];
      simpl in *; [right; split; [done | by left]|].
    destruct (txn s1 !! i) as [row|]; simpl in *;
      [|right; split; [done | by left]].
    destruct (render_cases (JSONRecord (in_db (i, row))))
      as [[_ ->]|[_ ->]]; [by left | right; split; [done | by left]].
  - destruct (list_engine w) as [Hr _].
    unfold list_processed_agent_data, create_db_session, list_handler,
      error_handler, execute_select_all, select_rows in *.
    run.
    destruct (round_trip (SessionLocal (engine w))) as [[e|[]] s1];
      simpl in *; [right; split; [done | by left]|].
    destruct (render_cases (JSONList (in_db <$> map_to_list (txn s1))))
      as [[_ ->]|[_ ->]]; [by left | right; split; [done | by left]].
  - unfold update_processed_agent_data, create_db_session, update_handler,
      error_handler, execute_select_one, select_row,
      execute_update_returning, update_row, commit, publish.
    run.
    pose proof (round_trip_frame (SessionLocal (engine w))) as (R1 & Q1 & T1).
    destruct (round_trip (SessionLocal (engine w))) as [[e|[]] s1];
      simpl in *; [right; split; [done | by left]|].
    rewrite T1. destruct (rows (engine w) !! i) as [old|] eqn:Hi;
      simpl; [|right; split; [done | by left]].
    pose proof (round_trip_frame s1) as (R2 & Q2 & T2).
    destruct (round_trip s1) as [[e|[]] s2]; simpl in *;
      [right; unfold close; split; [done | left; congruence]|].
    rewrite T2, T1, Hi.
    match goal with
    | |- context [round_trip ?s] =>
        pose proof (round_trip_frame s) as (R3 & Q3 & T3);
        destruct (round_trip s) as [[e|[]] s3]; simpl in *
    end; [right; unfold close; split; [done | left; congruence]|].
    destruct (render_cases
                (JSONRecord (in_db (i, column_coerce (request_values data)))))
      as [[_ ->]|[Hf ->]]; [by left|].
    right. split; [done|]. right. exists i, data. unfold close.
    repeat split; done.
  - unfold delete_processed_agent_data, create_db_session, delete_handler,
      error_handler, execute_delete, delete_row, commit, publish.
    run.
    pose proof (round_trip_frame (SessionLocal (engine w))) as (R1 & Q1 & T1).
    destruct (round_trip (SessionLocal (engine w))) as [[e|[]] s1];
      simpl in *; [right; split; [done | by left]|].
    match goal with
    | |- context [round_trip ?s] =>
        pose proof (round_trip_frame s) as (R3 & Q3 & T3);
        destruct (round_trip s) as [[e|[]] s3]; simpl in *
    end; [|by left].
    right. unfold close. split; [done | left; congruence].
Qed.

(** X2: whatever the request and whichever round trips fail, a reply
    other than a 200 means the committed table is the one before the
    request, with one exception: an update whose row holds a float that
    is not finite is committed and then answered with the server's 500.
    The two reading routes never change the table at all. *)
Theorem table_after_error_reply (req : Request) (w : World) :
  (status_code_of (fst (app req w)) ≠ 200 →
   rows (engine (snd (app req w))) = rows (engine w)
   ∨ ∃ i data,
       req = Put i data
       ∧ is_Some (rows (engine w) !! i)
       ∧ json_record (in_db (i, column_coerce (request_values data))) = false
       ∧ fst (app req w) = JSONError 500 "Internal Server Error"
       ∧ rows (engine (snd (app req w)))
         = <[i := column_coerce (request_values data)]> (rows (engine w)))
  ∧ match req with
    | Get _ | GetAll => rows (engine (snd (app req w))) = rows (engine w)
    | _ => True
    end.
Proof.
  split.
  - intros Hn. by destruct (app_reply_cases req w) as [E|[_ E]].
  - destruct req as [data|i| |i data|i]; simpl; try done.
    + apply read_engine.
    + apply list_engine.
Qed.

(** X3: to a request that has passed the framework's validation no route
    ever answers with a status other than 200 and 500; in particular
    none answers 404. *)
Theorem status_200_or_500 (req : Request) (w : World) :
  status_code_of (fst (app req w)) = 200
  ∨ status_code_of (fst (app req w)) = 500.
Proof.
  destruct (app_reply_cases req w) as [E|[E _]]; [by left | by right].
Qed.

(** X4: with the engine answering, an update of an id that is not in the
    table is answered with a 500 whose detail is the handler's own 404
    exception printed after [Error: ], and the table is left as it was. *)
Theorem update_absent_is_500 (i : Z) (data : ProcessedAgentDataRequest.t)
  (w : World) :
  quiet w → rows (engine w) !! i = None →
  fst (update_processed_agent_data i data w)
  = JSONError 500 ("Error: " +:+ str_HTTPException 404 "data not exist")
  ∧ rows (engine (snd (update_processed_agent_data i data w)))
    = rows (engine w).
Proof.
  intros Hq Hi.
  unfold update_processed_agent_data, create_db_session, update_handler,
    error_handler.
  run.
  destruct (execute_select_one_calm i (SessionLocal (engine w)) Hq)
    as (s1 & -> & Ht1 & Hr1 & Hq1 & Hc1).
  simpl. rewrite Hi. simpl. done.
Qed.

(** X5: with the engine answering, after a delete of [i] a read of [i]
    finds nothing (and answers the 500 of the absent id), while a read of
    any other id answers what it answered before the delete. *)
Theorem delete_then_read (i : Z) (w : World) :
  quiet w →
  let w1 := snd (delete_processed_agent_data i w) in
  fst (read_processed_agent_data i w1)
  = JSONError 500 ("Error: " +:+ str_HTTPException 404 "data not exist")
  ∧ ∀ j, j ≠ i →
      fst (read_processed_agent_data j w1)
      = fst (read_processed_agent_data j w).
Proof.
  intros Hq. cbv zeta.
  destruct (delete_quiet i w Hq) as (_ & R1 & Q1).
  split.
  - destruct (read_quiet i _ Q1) as (-> & _).
    by rewrite R1, lookup_delete_eq.
  - intros j Hj.
    destruct (read_quiet j _ Q1) as (-> & _).
    destruct (read_quiet j w Hq) as (-> & _).
    by rewrite R1, lookup_delete_ne.
Qed.

(** X6: with the engine answering and the id in the table, a second
    update of the same id replaces the first one whole: reply and table
    are those of the second update made alone. *)
Theorem update_last_write_wins (i : Z)
  (data1 data2 : ProcessedAgentDataRequest.t) (w : World) :
  quiet w → is_Some (rows (engine w) !! i) →
  let w1 := snd (update_processed_agent_data i data1 w) in
  fst (update_processed_agent_data i data2 w1)
  = fst (update_processed_agent_data i data2 w)
  ∧ rows (engine (snd (update_processed_agent_data i data2 w1)))
    = rows (engine (snd (update_processed_agent_data i data2 w))).
Proof.
  intros Hq [old Hi]. cbv zeta.
  destruct (update_quiet i data1 old w Hq Hi) as (_ & R1 & Q1).
  destruct (update_quiet i data2 old w Hq Hi) as (E2 & R2 & _).
  assert (rows (engine (snd (update_processed_agent_data i data1 w))) !! i
          = Some (column_coerce (request_values data1))) as Hi1
    by (rewrite R1; apply lookup_insert_eq).
  destruct (update_quiet i data2 _ _ Q1 Hi1) as (E3 & R3 & _).
  rewrite E3, E2, R3, R2, R1. split; [done|]. apply insert_insert_eq.
Qed.

(** The insert loop on an answering engine whose sequence is ahead of the
    transaction's view gets through. *)
Lemma insert_loop_calm (data : list ProcessedAgentDataRequest.t) :
  ∀ s, calm s →
    (∀ j, id_seq (bind s) ≤ j → txn s !! j = None) →
    ∃ s', insert_loop data s = (inr tt, s')
          ∧ calm s' ∧ rows (bind s') = rows (bind s).
Proof.
  induction data as [|el data IH]; intros s Hc Hfree.
  - exists s. done.
  - unfold insert_loop in *. simpl. run.
    destruct (execute_insert_calm (request_values el) s Hc)
      as (s1 & -> & Ht1 & Hr1 & Hq1 & Hc1); [apply Hfree; lia|].
    destruct (IH s1 Hc1) as (s' & E & Hc' & Hr').
    + intros j Hj. rewrite Ht1, lookup_insert_ne by lia. apply Hfree. lia.
    + exists s'. split; [done|]. split; [done | congruence].
Qed.

Lemma create_batch_quiet (data : list ProcessedAgentDataRequest.t)
  (w : World) :
  quiet w → sequence_ahead (engine w) →
  fst (create_processed_agent_data data w)
  = JSONStatus "data added successfully"
  ∧ quiet (snd (create_processed_agent_data data w))
  ∧ ∀ (k : nat) element, data !! k = Some element →
      rows (engine (snd (create_processed_agent_data data w)))
        !! (id_seq (engine w) + Z.of_nat k)
      = Some (column_coerce (request_values element)).
Proof.
  intros Hq Hw.
  unfold create_processed_agent_data, create_db_session, create_handler.
  run.
  destruct (insert_loop_calm data (SessionLocal (engine w)) Hq Hw)
    as (s1 & E & Hc1 & Hr1).
  pose proof (insert_loop_ok data _ _ E) as (Hin & _ & _).
  rewrite E.
  destruct (commit_calm s1 Hc1) as (s2 & -> & Hr2 & Hq2 & Hc2).
  simpl. split; [done|]. split; [done|].
  intros k el Hk. unfold close. rewrite Hr2. by apply Hin.
Qed.

(** X7: with the engine answering and the sequence ahead of the table, a
    batch of any length is committed, and reading the ids the sequence
    handed out, in input order, returns the stored elements one by one,
    each as its image where its floats are finite and as the server's
    500 where one is not. *)
Theorem create_batch_then_read (data : list ProcessedAgentDataRequest.t)
  (w : World) :
  quiet w → sequence_ahead (engine w) →
  let w' := snd (create_processed_agent_data data w) in
  fst (create_processed_agent_data data w)
  = JSONStatus "data added successfully"
  ∧ ∀ (k : nat) element, data !! k = Some element →
      let image :=
        in_db (id_seq (engine w) + Z.of_nat k,
               column_coerce (request_values element)) in
      fst (read_processed_agent_data (id_seq (engine w) + Z.of_nat k) w')
      = (if json_record image then JSONRecord image
         else JSONError 500 "Internal Server Error").
Proof.
  intros Hq Hw. cbv zeta.
  destruct (create_batch_quiet data w Hq Hw) as (E & Q1 & Hin).
  split; [done|]. intros k el Hk.
  destruct (read_quiet (id_seq (engine w) + Z.of_nat k) _ Q1) as (-> & _).
  by rewrite (Hin k el Hk).
Qed.

(** X13: with the engine answering and the id in the table, an update
    whose row holds a float that is not finite is committed and then
    answered with the server's 500: the commit comes before the reply is
    written. *)
Theorem update_commits_then_500 (i : Z) (data : ProcessedAgentDataRequest.t)
  (w : World) :
  quiet w →
  is_Some (rows (engine w) !! i) →
  json_record (in_db (i, column_coerce (request_values data))) = false →
  fst (update_processed_agent_data i data w)
  = JSONError 500 "Internal Server Error"
  ∧ rows (engine (snd (update_processed_agent_data i data w))) !! i
    = Some (column_coerce (request_values data)).
Proof.
  intros Hq [old Hi] Hf.
  destruct (update_quiet i data old w Hq Hi) as (-> & -> & _).
  split; [|apply lookup_insert_eq].
  unfold render. simpl. by rewrite Hf.
Qed.

Lemma serve_sequence_ahead
  (reqs : list (list (option string) * Request)) :
  ∀ w, sequence_ahead (engine w) → sequence_ahead (engine (serve reqs w)).
Proof.
  induction reqs as [|[fs req] reqs IH]; intros w Hw; simpl; [done|].
  apply IH, app_sequence_ahead. exact Hw.
Qed.

(** X8: after any sequence of requests, failed or not, on a table the
    sequence was ahead of, a batch sent to an answering engine is
    committed: the primary key never collides. *)
Theorem create_after_any_history
  (reqs : list (list (option string) * Request))
  (data : list ProcessedAgentDataRequest.t) (w : World) :
  sequence_ahead (engine w) →
  quiet (serve reqs w) →
  fst (create_processed_agent_data data (serve reqs w))
  = JSONStatus "data added successfully".
Proof.
  intros Hw Hq.
  apply (create_batch_quiet data (serve reqs w) Hq).
  by apply serve_sequence_ahead.
Qed.

End RouteFacts.

(** * Further properties of the registry *)

Section ProcessFacts.
Context `{External} {Data : Type} (json_dumps : Data → string).

(** X9: a run of the WebSocket endpoint for a connection that was not
    registered keeps the connection in the registry for as long as the
    client sends texts, drops every text, and on disconnect leaves the
    whole process state as it found it, without raising. *)
Theorem websocket_endpoint_fresh (h : WebSocket) (texts : list string)
  (w : World) :
  h ∉ subscriptions w →
  h ∈ subscriptions (foldl websocket_receive (websocket_connect h w) texts)
  ∧ websocket_endpoint h texts w = (inr tt, w).
Proof.
  intros Hh. split.
  - rewrite foldl_websocket_receive. unfold websocket_connect, set_add.
    cbn [subscriptions set_subscriptions].
    apply elem_of_union_l, elem_of_singleton. reflexivity.
  - rewrite websocket_endpoint_returns. f_equal.
    destruct w as [e subs out]. unfold set_subscriptions. simpl in *.
    f_equal. apply set_eq. intros k.
    rewrite elem_of_difference, elem_of_singleton.
    split; [tauto|]. intros Hk. split; [done|]. by intros ->.
Qed.

Lemma orderly_connected (s : gset WebSocket) (h : WebSocket)
  (evs : list WsEvent) :
  orderly s (Connected h :: evs) → orderly ({[h]} ∪ s) evs.
Proof.
  intros Ho pre h' post ->.
  destruct (Ho (Connected h :: pre) h' post eq_refl) as [Hn Hc].
  split.
  - intros Hin. apply Hn. by apply list_elem_of_further.
  - destruct Hc as [Hc|Hc].
    + apply elem_of_cons in Hc as [[= ->]|Hc]; [|by left].
      right. apply elem_of_union_l, elem_of_singleton. reflexivity.
    + right. by apply elem_of_union_r.
Qed.

Lemma orderly_disconnected (s : gset WebSocket) (h : WebSocket)
  (evs : list WsEvent) :
  orderly s (Disconnected h :: evs) → h ∈ s ∧ orderly (s ∖ {[h]}) evs.
Proof.
  intros Ho. split.
  - destruct (Ho [] h evs eq_refl) as [_ [Hc|Hc]]; [|done].
    by apply elem_of_nil in Hc.
  - intros pre h' post ->.
    destruct (Ho (Disconnected h :: pre) h' post eq_refl) as [Hn Hc].
    assert (h' ≠ h) as Hne.
    { intros ->. apply Hn. apply list_elem_of_here. }
    split.
    + intros Hin. apply Hn. by apply list_elem_of_further.
    + destruct Hc as [Hc|Hc].
      * apply elem_of_cons in Hc as [[=]|Hc]. by left.
      * right. apply elem_of_difference. split; [done|].
        by rewrite elem_of_singleton.
Qed.

(** X10: however the runs of the endpoint interleave, as long as each
    connection disconnects once and after it has connected, no removal
    raises [KeyError]. *)
Theorem ws_trace_never_raises (evs : list WsEvent) (w : World) :
  orderly (subscriptions w) evs → fst (ws_trace evs w) = inr tt.
Proof.
  revert w. induction evs as [|[h|h] evs IH]; intros w Ho; simpl; [done| |].
  - apply IH. unfold websocket_connect, set_add.
    cbn [subscriptions set_subscriptions]. by apply orderly_connected.
  - apply orderly_disconnected in Ho as [Hh Ho].
    unfold websocket_disconnect. rewrite (set_remove_present h _ Hh).
    apply IH. by cbn [subscriptions set_subscriptions].
Qed.

Lemma happen_sent (ev : Event) (w : World) :
  sent (happen json_dumps ev w) = sent w.
Proof.
  destruct ev as [fs req|[h|h]|user_id data]; simpl.
  - destruct req as [d|i| |i d|i]; simpl;
      unfold create_processed_agent_data, read_processed_agent_data,
        list_processed_agent_data, update_processed_agent_data,
        delete_processed_agent_data;
      match goal with
      | |- sent (snd (create_db_session ?hd ?w0)) = _ =>
          by destruct (create_db_session_frame hd w0) as [_ ->]
      end.
  - done.
  - unfold websocket_disconnect.
    by destruct (set_remove h (subscriptions w)).
  - unfold send_data_to_subscribers. by rewrite set_contains_int.
Qed.

(** X11: whatever happens in the process, CRUD requests with or without
    storage faults, connections coming and going, calls of the broadcast
    helper with any integer, nothing is ever pushed to any connection. *)
Theorem nothing_is_ever_sent (evs : list (Event (Data := Data)))
  (w : World) :
  sent (history json_dumps evs w) = sent w.
Proof.
  revert w. unfold history.
  induction evs as [|ev evs IH]; intros w; simpl; [done|].
  rewrite IH. apply happen_sent.
Qed.

End ProcessFacts.

(** ** The further theorems at sample inputs *)

Section MoreSamples.
#[local] Existing Instance verbatim.

(** X4 at [PUT /processed_agent_data/999] on the empty table. *)
Lemma update_absent_is_500_witness :
  quiet empty_world
  ∧ rows (engine empty_world) !! 999 = None
  ∧ fst (update_processed_agent_data 999 pothole empty_world)
    = JSONError 500 "Error: 404: data not exist".
Proof.
  split; [exact (quiet_nil empty_world eq_refl)|].
  split; [reflexivity|].
  exact (proj1 (update_absent_is_500 999 pothole empty_world
                  (quiet_nil empty_world eq_refl) eq_refl)).
Defined.

(** X5 at the one-row table. *)
Lemma delete_then_read_witness :
  quiet one_row_world
  ∧ fst (read_processed_agent_data 1
           (snd (delete_processed_agent_data 1 one_row_world)))
    = JSONError 500 "Error: 404: data not exist".
Proof.
  split; [exact (quiet_nil one_row_world eq_refl)|].
  exact (proj1 (delete_then_read 1 one_row_world
                  (quiet_nil one_row_world eq_refl))).
Defined.

(** X6 at the one-row table. *)
Lemma update_last_write_wins_witness :
  quiet one_row_world
  ∧ is_Some (rows (engine one_row_world) !! 1)
  ∧ rows (engine
       (snd (update_processed_agent_data 1 pothole
          (snd (update_processed_agent_data 1 clear_road one_row_world)))))
    = rows (engine
         (snd (update_processed_agent_data 1 pothole one_row_world))).
Proof.
  split; [exact (quiet_nil one_row_world eq_refl)|].
  split; [exact (ex_intro _ (request_values clear_road) eq_refl)|].
  exact (proj2 (update_last_write_wins 1 clear_road pothole one_row_world
                  (quiet_nil one_row_world eq_refl)
                  (ex_intro _ (request_values clear_road) eq_refl))).
Defined.

Lemma sequence_ahead_empty : sequence_ahead (engine empty_world).
Proof. intros j _. apply lookup_empty. Defined.

(** X8 after a create whose commit failed and a delete. *)
Lemma create_after_any_history_witness :
  sequence_ahead (engine empty_world)
  ∧ fst (create_processed_agent_data [pothole]
           (serve [([None; Some "connection refused"], Post [clear_road]);
                   ([], Delete 1)] empty_world))
    = JSONStatus "data added successfully".
Proof.
  split; [exact sequence_ahead_empty|].
  exact (create_after_any_history
           [([None; Some "connection refused"], Post [clear_road]);
            ([], Delete 1)] [pothole] empty_world
           sequence_ahead_empty (Forall_nil_2 _)).
Defined.

(** X9 at a first connection that sends two texts. *)
Lemma websocket_endpoint_fresh_witness :
  (7%nat ∉ subscriptions empty_world)
  ∧ websocket_endpoint 7%nat ["ping"; "pong"] empty_world
    = (inr tt, empty_world).
Proof.
  split; [exact (not_elem_of_empty 7%nat)|].
  exact (proj2 (websocket_endpoint_fresh 7%nat ["ping"; "pong"] empty_world
                  (not_elem_of_empty 7%nat))).
Defined.

Lemma orderly_two_connections :
  orderly (subscriptions empty_world)
    [Connected 1%nat; Connected 2%nat; Disconnected 1%nat;
     Disconnected 2%nat].
Proof.
  intros pre h post E.
  destruct pre as [|e1 [|e2 [|e3 [|e4 [|e5 pre]]]]]; simplify_eq/=.
  - split; [|left; apply list_elem_of_here].
    intros Hin. repeat (apply elem_of_cons in Hin as [Hin|Hin]; [done|]).
    by apply elem_of_nil in Hin.
  - split; [|left; apply list_elem_of_further, list_elem_of_here].
    intros Hin. repeat (apply elem_of_cons in Hin as [Hin|Hin]; [done|]).
    by apply elem_of_nil in Hin.
Defined.

(** X10 at two connections that overlap. *)
Lemma ws_trace_never_raises_witness :
  orderly (subscriptions empty_world)
    [Connected 1%nat; Connected 2%nat; Disconnected 1%nat;
     Disconnected 2%nat]
  ∧ fst (ws_trace [Connected 1%nat; Connected 2%nat; Disconnected 1%nat;
                   Disconnected 2%nat] empty_world)
    = inr tt.
Proof.
  split; [exact orderly_two_connections|].
  exact (ws_trace_never_raises _ empty_world orderly_two_connections).
Defined.

End MoreSamples.

(** ** The table as declared: timestamps without offset *)

Section DeclaredTable.
#[local] Existing Instance naive_timestamps.

(** C4, the claim as stated fails: a reading whose timestamp carries a UTC
    offset is created on the empty table, and the record read back under
    the assigned id has a timestamp without offset, so it is not the
    input in every field. *)
Lemma create_then_read_differs :
  ¬ (∀ (r : ProcessedAgentDataRequest.t) (w : World),
       quiet w →
       rows (engine w) !! id_seq (engine w) = None →
       fst (read_processed_agent_data (id_seq (engine w))
              (snd (create_processed_agent_data [r] w)))
       = JSONRecord
           (ProcessedAgentDataInDB.mk (id_seq (engine w))
              (ProcessedAgentDataRequest.road_state r)
              (AccelerometerData.x (AgentData.accelerometer
                 (ProcessedAgentDataRequest.agent_data r)))
              (AccelerometerData.y (AgentData.accelerometer
                 (ProcessedAgentDataRequest.agent_data r)))
              (AccelerometerData.z (AgentData.accelerometer
                 (ProcessedAgentDataRequest.agent_data r)))
              (GpsData.latitude (AgentData.gps
                 (ProcessedAgentDataRequest.agent_data r)))
              (GpsData.longitude (AgentData.gps
                 (ProcessedAgentDataRequest.agent_data r)))
              (AgentData.timestamp
                 (ProcessedAgentDataRequest.agent_data r)))).
Proof.
  intros Hclaim.
  specialize (Hclaim clear_road empty_world
                (quiet_nil empty_world eq_refl) eq_refl).
  vm_compute in Hclaim. discriminate.
Qed.

(** What is read back there, and what is read back for a reading with an
    infinite component. *)
Example create_then_read_samples :
  fst (read_processed_agent_data 1
         (snd (create_processed_agent_data [clear_road] empty_world)))
  = JSONRecord
      (ProcessedAgentDataInDB.mk 1 "clear" 1%float 2%float 3%float
           10%float 20%float (mk_datetime 2024 1 1 0 0 0 0 None))
  ∧ fst (create_processed_agent_data [blizzard] empty_world)
    = JSONStatus "data added successfully"
  ∧ fst (read_processed_agent_data 1
           (snd (create_processed_agent_data [blizzard] empty_world)))
    = JSONError 500 "Internal Server Error".
Proof. repeat split; reflexivity. Qed.

(** C4 at a first record whose timestamp has no offset. *)
Lemma create_then_read_witness :
  quiet empty_world
  ∧ rows (engine empty_world) !! id_seq (engine empty_world) = None
  ∧ fst (create_processed_agent_data [pothole] empty_world)
    = JSONStatus "data added successfully"
  ∧ fst (read_processed_agent_data 1
           (snd (create_processed_agent_data [pothole] empty_world)))
    = JSONRecord
        (ProcessedAgentDataInDB.mk 1 "pothole" 0.5%float 0.25%float
           9.75%float 50.5%float 30.5%float
           (mk_datetime 2024 3 9 12 30 0 0 None)).
Proof.
  pose proof (create_then_read pothole empty_world
                (quiet_nil empty_world eq_refl) eq_refl)
    as (Hc & _ & Hr & _).
  split; [exact (quiet_nil empty_world eq_refl)|].
  split; [reflexivity|]. split; [exact Hc | exact Hr].
Defined.

(** C5, the claim as stated fails: the row under the id 1 is updated with
    a reading whose timestamp carries a UTC offset, and the record read
    back has a timestamp without offset. *)
Lemma update_then_read_differs :
  ¬ (∀ (i : Z) (r2 : ProcessedAgentDataRequest.t) (w : World),
       quiet w →
       is_Some (rows (engine w) !! i) →
       fst (read_processed_agent_data i
              (snd (update_processed_agent_data i r2 w)))
       = JSONRecord
           (ProcessedAgentDataInDB.mk i
              (ProcessedAgentDataRequest.road_state r2)
              (AccelerometerData.x (AgentData.accelerometer
                 (ProcessedAgentDataRequest.agent_data r2)))
              (AccelerometerData.y (AgentData.accelerometer
                 (ProcessedAgentDataRequest.agent_data r2)))
              (AccelerometerData.z (AgentData.accelerometer
                 (ProcessedAgentDataRequest.agent_data r2)))
              (GpsData.latitude (AgentData.gps
                 (ProcessedAgentDataRequest.agent_data r2)))
              (GpsData.longitude (AgentData.gps
                 (ProcessedAgentDataRequest.agent_data r2)))
              (AgentData.timestamp
                 (ProcessedAgentDataRequest.agent_data r2)))).
Proof.
  intros Hclaim.
  specialize (Hclaim 1 clear_road pothole_world
                (quiet_nil pothole_world eq_refl)
                (ex_intro _ (request_values pothole) eq_refl)).
  vm_compute in Hclaim. discriminate.
Qed.

(** C5 at the one-row table, replacing the row under the id 1. *)
Lemma update_then_read_witness :
  quiet pothole_world
  ∧ is_Some (rows (engine pothole_world) !! 1)
  ∧ fst (update_processed_agent_data 1 gravel pothole_world)
    = JSONRecord
        (ProcessedAgentDataInDB.mk 1 "gravel" 0.125%float 1.5%float
           9.5%float 49.25%float 24.75%float
           (mk_datetime 2024 3 9 12 31 0 0 None))
  ∧ fst (read_processed_agent_data 1
           (snd (update_processed_agent_data 1 gravel pothole_world)))
    = fst (update_processed_agent_data 1 gravel pothole_world).
Proof.
  pose proof (update_then_read 1 gravel pothole_world
                (quiet_nil pothole_world eq_refl)
                (ex_intro _ (request_values pothole) eq_refl))
    as (_ & Hu & Hr & _).
  split; [exact (quiet_nil pothole_world eq_refl)|].
  split; [exact (ex_intro _ (request_values pothole) eq_refl)|].
  split; [exact Hu | exact Hr].
Defined.

Lemma finite_table_pothole : finite_table (rows (engine pothole_world)).
Proof.
  intros i row Hi.
  change (({[ 1 := request_values pothole ]} : gmap Z Row.t) !! i = Some row)
    in Hi.
  apply lookup_singleton_Some in Hi as [<- <-]. reflexivity.
Defined.

(** X1 at the one-row table. *)
Lemma list_matches_read_witness :
  quiet pothole_world
  ∧ finite_table (rows (engine pothole_world))
  ∧ ∃ l, fst (list_processed_agent_data pothole_world) = JSONList l
         ∧ length l = 1%nat.
Proof.
  split; [exact (quiet_nil pothole_world eq_refl)|].
  split; [exact finite_table_pothole|].
  destruct (list_matches_read pothole_world
              (quiet_nil pothole_world eq_refl) finite_table_pothole)
    as (l & E & Hl & _).
  exists l. split; [exact E | exact Hl].
Defined.

(** X7 at a batch of two on the empty table. *)
Lemma create_batch_then_read_witness :
  quiet empty_world
  ∧ sequence_ahead (engine empty_world)
  ∧ fst (create_processed_agent_data [pothole; gravel] empty_world)
    = JSONStatus "data added successfully"
  ∧ fst (read_processed_agent_data 2
           (snd (create_processed_agent_data [pothole; gravel]
                   empty_world)))
    = JSONRecord
        (ProcessedAgentDataInDB.mk 2 "gravel" 0.125%float 1.5%float
           9.5%float 49.25%float 24.75%float
           (mk_datetime 2024 3 9 12 31 0 0 None)).
Proof.
  split; [exact (quiet_nil empty_world eq_refl)|].
  split; [exact sequence_ahead_empty|].
  destruct (create_batch_then_read [pothole; gravel] empty_world
              (quiet_nil empty_world eq_refl) sequence_ahead_empty)
    as [Hc Hr].
  split; [exact Hc | exact (Hr 1%nat gravel eq_refl)].
Defined.

(** X12 at a table whose one row holds an infinity. *)
Lemma list_breaks_on_one_row_witness :
  quiet blizzard_world
  ∧ rows (engine blizzard_world) !! 1 = Some (request_values blizzard)
  ∧ json_record (in_db (1, request_values blizzard)) = false
  ∧ fst (list_processed_agent_data blizzard_world)
    = JSONError 500 "Internal Server Error".
Proof.
  split; [exact (quiet_nil blizzard_world eq_refl)|].
  split; [reflexivity|]. split; [reflexivity|].
  exact (proj1 (list_breaks_on_one_row 1 (request_values blizzard)
                  blizzard_world (quiet_nil blizzard_world eq_refl)
                  eq_refl eq_refl)).
Defined.

(** X13 at an update with an infinite component. *)
Lemma update_commits_then_500_witness :
  quiet pothole_world
  ∧ is_Some (rows (engine pothole_world) !! 1)
  ∧ json_record (in_db (1, column_coerce (request_values blizzard))) = false
  ∧ fst (update_processed_agent_data 1 blizzard pothole_world)
    = JSONError 500 "Internal Server Error"
  ∧ rows (engine (snd (update_processed_agent_data 1 blizzard pothole_world)))
      !! 1
    = Some (request_values blizzard).
Proof.
  pose proof (update_commits_then_500 1 blizzard pothole_world
                (quiet_nil pothole_world eq_refl)
                (ex_intro _ (request_values pothole) eq_refl) eq_refl)
    as [Hu Hr].
  split; [exact (quiet_nil pothole_world eq_refl)|].
  split; [exact (ex_intro _ (request_values pothole) eq_refl)|].
  split; [reflexivity|]. split; [exact Hu | exact Hr].
Defined.

End DeclaredTable.
